(** * ionic-manup: the mandatory/optional update gate of [manup.service.ts]

    A shallow embedding of [ManUpService] (src/manup.service.ts) and of the
    collaborators it talks to, followed by the properties of the
    specification that were checked against it.

    Conventions.
    - A JavaScript string is a [string]: a sequence of code units below 256.
    - A synchronous call that may throw returns a [result]; a promise is
      represented by its eventual fate, a [promise]: resolved with a value,
      rejected with an error, or pending for ever.
    - A value typed [T | undefined | null] in the source is an [option T]. *)

From Stdlib Require Import Ascii String NArith ZArith Lia List Bool.
From stdpp Require Import base option gmap strings list.

Local Open Scope string_scope.
Local Open Scope list_scope.

(** ** Errors, synchronous results and promises *)

Inductive error : Type :=
  | StorageNotConfigured   (* new Error('Storage not configured') *)
  | MetadataDoesNotExist   (* new Error('metadata does not exist') *)
  | UnknownPlatform        (* new Error('Unknown platform') *)
  | TypeError              (* property read on undefined, invalid version *)
  | SyntaxError            (* JSON.parse on a malformed text *)
  | External (msg : string). (* failure reported by a collaborator *)

(** Outcome of a synchronous call. *)
Inductive result (A : Type) : Type :=
  | Returned (a : A)
  | Thrown (e : error).
Arguments Returned {A} a.
Arguments Thrown {A} e.

(** Eventual fate of a promise. *)
Inductive promise (A : Type) : Type :=
  | Resolved (a : A)
  | Rejected (e : error)
  | Pending.
Arguments Resolved {A} a.
Arguments Rejected {A} e.
Arguments Pending {A}.

Definition settled {A} (p : promise A) : bool :=
  match p with Pending => false | _ => true end.

(** ** The [semver] package: strict-mode [semver.lt]

    [semver.lt(a, b)] builds [new SemVer(a)] and [new SemVer(b)], each of
    which throws a [TypeError] on a string that is not
    [v?MAJOR.MINOR.PATCH(-PRERELEASE)?(+BUILD)?], and answers whether the
    first precedes the second in semantic-version precedence.  Numeric
    identifiers are compared as natural numbers. *)
Module Semver.

Inductive identifier : Type :=
  | INum (n : N)
  | IStr (s : string).

Record SemVer : Type := mkSemVer {
  major : N;
  minor : N;
  patch : N;
  prerelease : list identifier
}.

Definition MAX_LENGTH : nat := 256.
Definition MAX_SAFE_INTEGER : N := 9007199254740991.

Definition code (c : ascii) : N := N_of_ascii c.

Definition is_digit (c : ascii) : bool :=
  (48 <=? code c)%N && (code c <=? 57)%N.

Definition is_letter (c : ascii) : bool :=
  ((65 <=? code c)%N && (code c <=? 90)%N)
  || ((97 <=? code c)%N && (code c <=? 122)%N).

Definition is_hyphen (c : ascii) : bool := (code c =? 45)%N.

(* [0-9A-Za-z-] *)
Definition is_ident_char (c : ascii) : bool :=
  is_digit c || is_letter c || is_hyphen c.

(* the characters removed by String.prototype.trim *)
Definition is_space (c : ascii) : bool :=
  ((9 <=? code c)%N && (code c <=? 13)%N)
  || (code c =? 32)%N || (code c =? 160)%N.

Fixpoint all_chars (p : ascii -> bool) (s : string) : bool :=
  match s with
  | EmptyString => true
  | String c s' => p c && all_chars p s'
  end.

Fixpoint trim_left (s : string) : string :=
  match s with
  | String c s' => if is_space c then trim_left s' else s
  | EmptyString => EmptyString
  end.

Fixpoint rev_string (acc s : string) : string :=
  match s with
  | EmptyString => acc
  | String c s' => rev_string (String c acc) s'
  end.

Definition trim (s : string) : string :=
  rev_string "" (trim_left (rev_string "" (trim_left s))).

(* value of a run of decimal digits *)
Fixpoint digits_value (acc : N) (s : string) : N :=
  match s with
  | EmptyString => acc
  | String c s' => digits_value (10 * acc + (code c - 48))%N s'
  end.

(* 0|[1-9]\d* *)
Definition numeric_identifier (s : string) : option N :=
  match s with
  | EmptyString => None
  | String c s' =>
      if all_chars is_digit s
      then if (code c =? 48)%N
           then match s' with EmptyString => Some 0%N | _ => None end
           else Some (digits_value 0 s)
      else None
  end.

(* String.prototype.split on a one-character separator *)
Fixpoint split_on (sep : ascii) (s : string) : list string :=
  match s with
  | EmptyString => [EmptyString]
  | String c s' =>
      if Ascii.eqb c sep then EmptyString :: split_on sep s'
      else match split_on sep s' with
           | x :: xs => String c x :: xs
           | [] => [String c EmptyString]
           end
  end.

(* the text before the first separator, and the text after it if any *)
Fixpoint cut (sep : ascii) (s : string) : string * option string :=
  match s with
  | EmptyString => (EmptyString, None)
  | String c s' =>
      if Ascii.eqb c sep then (EmptyString, Some s')
      else let '(a, b) := cut sep s' in (String c a, b)
  end.

(* 0|[1-9]\d*|\d*[a-zA-Z-][a-zA-Z0-9-]*, numeric identifiers numberified *)
Definition prerelease_identifier (s : string) : option identifier :=
  match s with
  | EmptyString => None
  | _ =>
      if all_chars is_digit s
      then match numeric_identifier s with
           | Some n => if (n <? MAX_SAFE_INTEGER)%N then Some (INum n)
                       else Some (IStr s)
           | None => None
           end
      else if all_chars is_ident_char s then Some (IStr s) else None
  end.

(* [0-9A-Za-z-]+ *)
Definition build_identifier (s : string) : bool :=
  match s with
  | EmptyString => false
  | _ => all_chars is_ident_char s
  end.

Fixpoint map_option {A B} (f : A -> option B) (l : list A) : option (list B) :=
  match l with
  | [] => Some []
  | x :: xs =>
      match f x, map_option f xs with
      | Some y, Some ys => Some (y :: ys)
      | _, _ => None
      end
  end.

Definition strip_v (s : string) : string :=
  match s with
  | String "v" s' => s'
  | _ => s
  end.

Definition in_range (n : N) : bool := (n <=? MAX_SAFE_INTEGER)%N.

(* new SemVer(version): None stands for the TypeError it throws *)
Definition parse (version : string) : option SemVer :=
  if (MAX_LENGTH <? String.length version)%nat then None else
  let '(body, build) := cut "+" (strip_v (trim version)) in
  let build_ok :=
    match build with
    | None => true
    | Some b => forallb build_identifier (split_on "." b)
    end in
  let '(main, pre) := cut "-" body in
  let pre_ids :=
    match pre with
    | None => Some []
    | Some p => map_option prerelease_identifier (split_on "." p)
    end in
  match map_option numeric_identifier (split_on "." main), pre_ids with
  | Some [ma; mi; pa], Some ids =>
      if build_ok && in_range ma && in_range mi && in_range pa
      then Some (mkSemVer ma mi pa ids)
      else None
  | _, _ => None
  end.

(* a < b on strings: code-unit lexicographic order *)
Fixpoint string_compare (a b : string) : comparison :=
  match a, b with
  | EmptyString, EmptyString => Eq
  | EmptyString, String _ _ => Lt
  | String _ _, EmptyString => Gt
  | String x a', String y b' =>
      match (code x ?= code y)%N with
      | Eq => string_compare a' b'
      | o => o
      end
  end.

(* compareIdentifiers *)
Definition numeric_text (s : string) : bool :=
  match s with EmptyString => false | _ => all_chars is_digit s end.

Definition compareIdentifiers (a b : identifier) : comparison :=
  match a, b with
  | INum x, INum y => (x ?= y)%N
  | INum x, IStr t =>
      if numeric_text t then (x ?= digits_value 0 t)%N else Lt
  | IStr s, INum y =>
      if numeric_text s then (digits_value 0 s ?= y)%N else Gt
  | IStr s, IStr t =>
      match numeric_text s, numeric_text t with
      | true, true => (digits_value 0 s ?= digits_value 0 t)%N
      | true, false => Lt
      | false, true => Gt
      | false, false => string_compare s t
      end
  end.

Definition compareMain (a b : SemVer) : comparison :=
  match (major a ?= major b)%N with
  | Eq => match (minor a ?= minor b)%N with
          | Eq => (patch a ?= patch b)%N
          | o => o
          end
  | o => o
  end.

Fixpoint compare_ids (a b : list identifier) : comparison :=
  match a, b with
  | [], [] => Eq
  | _ :: _, [] => Gt
  | [], _ :: _ => Lt
  | x :: a', y :: b' =>
      match compareIdentifiers x y with
      | Eq => compare_ids a' b'
      | o => o
      end
  end.

Definition comparePre (a b : SemVer) : comparison :=
  match prerelease a, prerelease b with
  | _ :: _, [] => Lt
  | [], _ :: _ => Gt
  | [], [] => Eq
  | pa, pb => compare_ids pa pb
  end.

Definition compare (a b : SemVer) : comparison :=
  match compareMain a b with
  | Eq => comparePre a b
  | o => o
  end.

Definition lt (a b : string) : result bool :=
  match parse a, parse b with
  | Some x, Some y =>
      Returned (match compare x y with Lt => true | _ => false end)
  | _, _ => Thrown TypeError
  end.

Definition valid (v : string) : Prop := is_Some (parse v).

End Semver.

(** ** Data model of the service *)

(** The types of alerts the service may present ([enum AlertType]). *)
Inductive AlertType : Type :=
  | MANDATORY    (* a mandatory update is required *)
  | OPTIONAL     (* an optional update is available *)
  | MAINTENANCE  (* the app is disabled *)
  | NOP.         (* nothing to see here *)

(** [interface PlatformData]. *)
Record PlatformData : Type := mkPlatformData {
  minimum : string;
  latest : string;
  url : string;
  enabled : bool
}.

(** [interface ManUpData]: every platform entry is optional. *)
Record ManUpData : Type := mkManUpData {
  ios : option PlatformData;
  android : option PlatformData;
  windows : option PlatformData
}.

Definition STORAGE_KEY : string := "com.nextfaze.ionic-manup".

(** ** The [JSON] object of the host: [JSON.stringify] and [JSON.parse]

    The fragment that metadata documents live in: [null], booleans, strings
    and objects.  [stringify] writes the compact text [JSON.stringify]
    produces; [parse] accepts insignificant white space and every escape
    sequence whose code unit is below 256. *)
Module JSON.

#[local] Unset Elimination Schemes.
Inductive value : Type :=
  | JNull
  | JBool (b : bool)
  | JString (s : string)
  | JObject (members : list (string * value)).
#[local] Set Elimination Schemes.

Definition code (c : ascii) : N := N_of_ascii c.
Definition chr (n : N) : ascii := ascii_of_N n.

Definition quote : ascii := chr 34.
Definition backslash : ascii := chr 92.

Definition hex_digit (n : N) : ascii :=
  if (n <? 10)%N then chr (48 + n) else chr (87 + n).

(* QuoteJSONString, one code unit *)
Definition escape_char (c : ascii) : string :=
  let n := code c in
  if (n =? 34)%N then String backslash (String quote "")
  else if (n =? 92)%N then String backslash (String backslash "")
  else if (n =? 8)%N then String backslash "b"
  else if (n =? 12)%N then String backslash "f"
  else if (n =? 10)%N then String backslash "n"
  else if (n =? 13)%N then String backslash "r"
  else if (n =? 9)%N then String backslash "t"
  else if (n <? 32)%N then
    String backslash
      (String "u" (String "0" (String "0"
        (String (hex_digit (n / 16)) (String (hex_digit (n mod 16)) "")))))
  else String c "".

Fixpoint escape (s : string) : string :=
  match s with
  | EmptyString => EmptyString
  | String c s' => escape_char c +:+ escape s'
  end.

Definition quoted (s : string) : string :=
  String quote (escape s +:+ String quote "").

Fixpoint stringify_members (f : value -> string) (ms : list (string * value)) : string :=
  match ms with
  | [] => "}"
  | (k, v) :: rest =>
      quoted k +:+ ":" +:+ f v +:+
      match rest with
      | [] => "}"
      | _ :: _ => "," +:+ stringify_members f rest
      end
  end.

Fixpoint stringify_value (v : value) : string :=
  match v with
  | JNull => "null"
  | JBool true => "true"
  | JBool false => "false"
  | JString s => quoted s
  | JObject ms => "{" +:+ stringify_members stringify_value ms
  end.

(* JSON white space *)
Definition is_ws (c : ascii) : bool :=
  let n := code c in
  (n =? 32)%N || (n =? 9)%N || (n =? 10)%N || (n =? 13)%N.

Fixpoint skip_ws (s : string) : string :=
  match s with
  | String c s' => if is_ws c then skip_ws s' else s
  | EmptyString => EmptyString
  end.

Definition hex_value (c : ascii) : option N :=
  let n := code c in
  if (48 <=? n)%N && (n <=? 57)%N then Some (n - 48)%N
  else if (97 <=? n)%N && (n <=? 102)%N then Some (n - 87)%N
  else if (65 <=? n)%N && (n <=? 70)%N then Some (n - 55)%N
  else None.

Definition hex4 (a b c d : ascii) : option N :=
  match hex_value a, hex_value b, hex_value c, hex_value d with
  | Some x, Some y, Some z, Some w => Some (((x * 16 + y) * 16 + z) * 16 + w)%N
  | _, _, _, _ => None
  end.

(* the character named by a one-letter escape *)
Definition unescape (e : ascii) : option ascii :=
  let n := code e in
  if (n =? 34)%N then Some quote
  else if (n =? 92)%N then Some backslash
  else if (n =? 47)%N then Some (chr 47)
  else if (n =? 98)%N then Some (chr 8)
  else if (n =? 102)%N then Some (chr 12)
  else if (n =? 110)%N then Some (chr 10)
  else if (n =? 114)%N then Some (chr 13)
  else if (n =? 116)%N then Some (chr 9)
  else None.

Definition push (c : ascii) (r : option (string * string)) : option (string * string) :=
  match r with
  | Some (s, rest) => Some (String c s, rest)
  | None => None
  end.

(* the characters of a string literal, after its opening quote *)
Fixpoint parse_chars (s : string) : option (string * string) :=
  match s with
  | EmptyString => None
  | String c s' =>
      if (code c =? 34)%N then Some (EmptyString, s')
      else if (code c =? 92)%N then
        match s' with
        | EmptyString => None
        | String e s'' =>
            if (code e =? 117)%N then
              match s'' with
              | String h1 (String h2 (String h3 (String h4 r))) =>
                  match hex4 h1 h2 h3 h4 with
                  | Some n => if (n <? 256)%N then push (chr n) (parse_chars r)
                              else None
                  | None => None
                  end
              | _ => None
              end
            else
              match unescape e with
              | Some ch => push ch (parse_chars s'')
              | None => None
              end
        end
      else if (code c <? 32)%N then None
      else push c (parse_chars s')
  end.

Fixpoint strip_prefix (p s : string) : option string :=
  match p, s with
  | EmptyString, _ => Some s
  | String a p', String b s' => if Ascii.eqb a b then strip_prefix p' s' else None
  | String _ _, EmptyString => None
  end.

Definition parse_literal (s : string) : option (value * string) :=
  match strip_prefix "null" s with
  | Some r => Some (JNull, r)
  | None =>
      match strip_prefix "true" s with
      | Some r => Some (JBool true, r)
      | None =>
          match strip_prefix "false" s with
          | Some r => Some (JBool false, r)
          | None => None
          end
      end
  end.

Fixpoint parse_value (fuel : nat) (s : string) : option (value * string) :=
  match fuel with
  | O => None
  | S fuel' =>
      match skip_ws s with
      | EmptyString => None
      | String c r =>
          if (code c =? 34)%N then
            match parse_chars r with
            | Some (str, rest) => Some (JString str, rest)
            | None => None
            end
          else if (code c =? 123)%N then
            match skip_ws r with
            | EmptyString => None
            | String c' r' =>
                if (code c' =? 125)%N then Some (JObject [], r')
                else
                  match parse_members fuel' r with
                  | Some (ms, rest) => Some (JObject ms, rest)
                  | None => None
                  end
            end
          else parse_literal (String c r)
      end
  end
with parse_members (fuel : nat) (s : string) : option (list (string * value) * string) :=
  match fuel with
  | O => None
  | S fuel' =>
      match skip_ws s with
      | EmptyString => None
      | String q r =>
          if (code q =? 34)%N then
            match parse_chars r with
            | None => None
            | Some (k, r1) =>
                match skip_ws r1 with
                | EmptyString => None
                | String colon r2 =>
                    if (code colon =? 58)%N then
                      match parse_value fuel' r2 with
                      | None => None
                      | Some (v, r3) =>
                          match skip_ws r3 with
                          | EmptyString => None
                          | String d r4 =>
                              if (code d =? 44)%N then
                                match parse_members fuel' r4 with
                                | Some (ms, r5) => Some ((k, v) :: ms, r5)
                                | None => None
                                end
                              else if (code d =? 125)%N then Some ([(k, v)], r4)
                              else None
                          end
                      end
                    else None
                end
            end
          else None
      end
  end.

(* JSON.parse on a text: the whole text must be one value *)
Definition parse_text (text : string) : result value :=
  match parse_value (S (String.length text)) text with
  | Some (v, rest) =>
      match skip_ws rest with
      | EmptyString => Returned v
      | String _ _ => Thrown SyntaxError
      end
  | None => Thrown SyntaxError
  end.

(* property read [o.k] on a parsed object: the last member named k *)
Fixpoint get (k : string) (ms : list (string * value)) : option value :=
  match ms with
  | [] => None
  | (k', v) :: rest =>
      match get k rest with
      | Some w => Some w
      | None => if String.eqb k k' then Some v else None
      end
  end.

(** *** Metadata documents as JSON values *)

Definition of_platform (p : PlatformData) : value :=
  JObject [("minimum", JString (minimum p)); ("latest", JString (latest p));
           ("url", JString (url p)); ("enabled", JBool (enabled p))].

Definition of_entry (name : string) (o : option PlatformData) : list (string * value) :=
  match o with
  | Some p => [(name, of_platform p)]
  | None => []
  end.

(* [null] or a ManUpData object; an absent entry is an absent property *)
Definition of_metadata (m : option ManUpData) : value :=
  match m with
  | None => JNull
  | Some d =>
      JObject (of_entry "ios" (ios d) ++ of_entry "android" (android d)
               ++ of_entry "windows" (windows d))
  end.

Definition to_platform (v : value) : option PlatformData :=
  match v with
  | JObject ms =>
      match get "minimum" ms, get "latest" ms, get "url" ms, get "enabled" ms with
      | Some (JString a), Some (JString b), Some (JString c), Some (JBool e) =>
          Some (mkPlatformData a b c e)
      | _, _, _, _ => None
      end
  | _ => None
  end.

Definition to_entry (name : string) (ms : list (string * value))
  : option (option PlatformData) :=
  match get name ms with
  | None | Some JNull => Some None
  | Some v => match to_platform v with
              | Some p => Some (Some p)
              | None => None
              end
  end.

(* the view of a parsed value as [ManUpData | null]; [None] when the value
   does not have the shape of the interface *)
Definition to_metadata (v : value) : option (option ManUpData) :=
  match v with
  | JNull => Some None
  | JObject ms =>
      match to_entry "ios" ms, to_entry "android" ms, to_entry "windows" ms with
      | Some i, Some a, Some w => Some (Some (mkManUpData i a w))
      | _, _, _ => None
      end
  | _ => None
  end.

(** [JSON.stringify(metadata)]. *)
Definition stringify (m : option ManUpData) : string :=
  stringify_value (of_metadata m).

(** [JSON.parse(data)] where [data] is a string or [null]: the argument is
    first converted to a string, and [null] becomes the text ["null"];
    the result is read at type [ManUpData].  A text that is JSON but is
    neither [null] nor a document of that interface has no reading at
    this type: the properties that depend on the reading of a text state
    that it has one ([typed_text], or an equation [parse _ = Returned _]),
    and those about texts that are not JSON go through
    [JSONSyntax.well_formed]. *)
Definition parse (data : option string) : result (option ManUpData) :=
  let text := match data with Some s => s | None => "null" end in
  match parse_text text with
  | Returned v =>
      match to_metadata v with
      | Some m => Returned m
      | None => Thrown TypeError
      end
  | Thrown e => Thrown e
  end.

End JSON.

(** ** Which texts [JSON.parse] accepts

    The grammar of JSON texts in full: objects, arrays, strings with every
    escape, numbers, and the three literals, with insignificant white
    space.  [well_formed text] holds exactly of the texts that
    [JSON.parse] does not reject with a [SyntaxError]. *)
Module JSONSyntax.

Definition code (c : ascii) : N := N_of_ascii c.

Definition is_digit (c : ascii) : bool :=
  (48 <=? code c)%N && (code c <=? 57)%N.

Definition is_hex (c : ascii) : bool :=
  is_digit c
  || ((97 <=? code c)%N && (code c <=? 102)%N)
  || ((65 <=? code c)%N && (code c <=? 70)%N).

(* the one-letter escapes: quote, backslash, slash, b, f, n, r, t *)
Definition is_escape (c : ascii) : bool :=
  let n := code c in
  (n =? 34)%N || (n =? 92)%N || (n =? 47)%N || (n =? 98)%N
  || (n =? 102)%N || (n =? 110)%N || (n =? 114)%N || (n =? 116)%N.

(* a string literal after its opening quote: the text after its closing
   quote *)
Fixpoint skip_chars (s : string) : option string :=
  match s with
  | EmptyString => None
  | String c s' =>
      if (code c =? 34)%N then Some s'
      else if (code c =? 92)%N then
        match s' with
        | EmptyString => None
        | String e s'' =>
            if (code e =? 117)%N then
              match s'' with
              | String h1 (String h2 (String h3 (String h4 r))) =>
                  if is_hex h1 && is_hex h2 && is_hex h3 && is_hex h4
                  then skip_chars r else None
              | _ => None
              end
            else if is_escape e then skip_chars s'' else None
        end
      else if (code c <? 32)%N then None
      else skip_chars s'
  end.

Fixpoint skip_digits (s : string) : string :=
  match s with
  | String c s' => if is_digit c then skip_digits s' else s
  | EmptyString => EmptyString
  end.

(* one digit at least *)
Definition skip_digits1 (s : string) : option string :=
  match s with
  | String c s' => if is_digit c then Some (skip_digits s') else None
  | EmptyString => None
  end.

(* 0 | [1-9][0-9]* *)
Definition skip_int (s : string) : option string :=
  match s with
  | String c s' =>
      if (code c =? 48)%N then Some s'
      else if is_digit c then Some (skip_digits s')
      else None
  | EmptyString => None
  end.

(* ( . [0-9]+ )? *)
Definition skip_frac (s : string) : option string :=
  match s with
  | String c s' => if (code c =? 46)%N then skip_digits1 s' else Some s
  | EmptyString => Some s
  end.

(* ( [eE] [+-]? [0-9]+ )? *)
Definition skip_exp (s : string) : option string :=
  match s with
  | String c s' =>
      if (code c =? 101)%N || (code c =? 69)%N then
        match s' with
        | String g s'' =>
            if (code g =? 43)%N || (code g =? 45)%N then skip_digits1 s''
            else skip_digits1 s'
        | EmptyString => None
        end
      else Some s
  | EmptyString => Some s
  end.

(* -? int frac? exp? *)
Definition skip_number (s : string) : option string :=
  let unsigned :=
    match s with
    | String c s' => if (code c =? 45)%N then s' else s
    | EmptyString => s
    end in
  match skip_int unsigned with
  | Some r =>
      match skip_frac r with
      | Some r' => skip_exp r'
      | None => None
      end
  | None => None
  end.

Definition skip_literal (s : string) : option string :=
  match JSON.strip_prefix "null" s with
  | Some r => Some r
  | None =>
      match JSON.strip_prefix "true" s with
      | Some r => Some r
      | None => JSON.strip_prefix "false" s
      end
  end.

Fixpoint skip_value (fuel : nat) (s : string) : option string :=
  match fuel with
  | O => None
  | S fuel' =>
      match JSON.skip_ws s with
      | EmptyString => None
      | String c r =>
          if (code c =? 34)%N then skip_chars r
          else if (code c =? 123)%N then
            match JSON.skip_ws r with
            | EmptyString => None
            | String c' r' =>
                if (code c' =? 125)%N then Some r'
                else skip_members fuel' r
            end
          else if (code c =? 91)%N then
            match JSON.skip_ws r with
            | EmptyString => None
            | String c' r' =>
                if (code c' =? 93)%N then Some r'
                else skip_elements fuel' r
            end
          else if (code c =? 45)%N || is_digit c then skip_number (String c r)
          else skip_literal (String c r)
      end
  end
with skip_members (fuel : nat) (s : string) : option string :=
  match fuel with
  | O => None
  | S fuel' =>
      match JSON.skip_ws s with
      | EmptyString => None
      | String q r =>
          if (code q =? 34)%N then
            match skip_chars r with
            | None => None
            | Some r1 =>
                match JSON.skip_ws r1 with
                | EmptyString => None
                | String colon r2 =>
                    if (code colon =? 58)%N then
                      match skip_value fuel' r2 with
                      | None => None
                      | Some r3 =>
                          match JSON.skip_ws r3 with
                          | EmptyString => None
                          | String d r4 =>
                              if (code d =? 44)%N then skip_members fuel' r4
                              else if (code d =? 125)%N then Some r4
                              else None
                          end
                      end
                    else None
                end
            end
          else None
      end
  end
with skip_elements (fuel : nat) (s : string) : option string :=
  match fuel with
  | O => None
  | S fuel' =>
      match skip_value fuel' s with
      | None => None
      | Some r =>
          match JSON.skip_ws r with
          | EmptyString => None
          | String d r' =>
              if (code d =? 44)%N then skip_elements fuel' r'
              else if (code d =? 93)%N then Some r'
              else None
          end
      end
  end.

(* one value, and nothing but white space after it *)
Definition well_formed (text : string) : bool :=
  match skip_value (S (String.length text)) text with
  | Some rest =>
      match JSON.skip_ws rest with
      | EmptyString => true
      | String _ _ => false
      end
  | None => false
  end.

End JSONSyntax.

(** ** The collaborators of the service *)

(** The buttons an alert may carry. *)
Inductive Button : Type :=
  | NotNow
  | Update.

(** What the service is seen to ask of its collaborators, in order. *)
Inductive event : Type :=
  | PlatformReady                          (* this.platform.ready() *)
  | HttpGet (url : string)                 (* this.http.get(url) *)
  | StorageGet (key : string)              (* this.storage.get(key) *)
  | StorageSet (key text : string)         (* this.storage.set(key, text) *)
  | GetVersionNumber                       (* this.AppVersion.getVersionNumber() *)
  | GetAppName                             (* this.AppVersion.getAppName() *)
  | AlertPresent (kind : AlertType) (title subTitle : string)
                 (buttons : list (Button * string))  (* alert.present() *)
  | BrowserCreate (url : option string) (target : string). (* this.iab.create *)

(** The injected collaborators and how they will answer.  [storage] and
    [translate] are the two [@Optional()] ones. *)
Record Host : Type := mkHost {
  config_url : string;                       (* this.config.url *)
  http_get : string -> promise string;       (* body of the response, if any *)
  platform_ready : promise unit;
  platform_is : string -> bool;              (* this.platform.is(name) *)
  app_version : promise string;
  app_name : promise string;
  translate : option (string -> option string -> string);
                                 (* instant(key) and instant(key, {app: name}) *)
  clicks : list Button                       (* what the user presses on an alert *)
}.

(** The part of the world the service changes: the key-value store, if one
    was injected, the trace of collaborator calls, and the promises created
    by [validate] whose [resolve] function was invoked (a promise is named
    by a handle, its rank of creation). *)
Record World : Type := mkWorld {
  storage : option (gmap string string);
  trace : list event;
  resolved : list nat
}.

Definition emit_in (e : event) (w : World) : World :=
  mkWorld (storage w) (trace w ++ [e]) (resolved w).

(** ** Asynchronous and synchronous code *)

(** The body of an [async] function: it changes the world and ends
    resolved, rejected, or suspended for ever at an [await]. *)
Definition Async (A : Type) : Type := World -> promise A * World.

(** A synchronous method: it changes the world and returns or throws. *)
Definition Sync (A : Type) : Type := World -> result A * World.

Definition ret {A} (a : A) : Async A := fun w => (Resolved a, w).

Definition throw {A} (e : error) : Async A := fun w => (Rejected e, w).

Definition bind {A B} (m : Async A) (f : A -> Async B) : Async B :=
  fun w =>
    match m w with
    | (Resolved a, w') => f a w'
    | (Rejected e, w') => (Rejected e, w')
    | (Pending, w') => (Pending, w')
    end.

Notation "x <- m ;; k" := (bind m (fun x => k))
  (at level 100, m at next level, right associativity).
Notation "m ;;; k" := (bind m (fun _ => k))
  (at level 100, right associativity).

(** [try { m } catch (err) { h err }] inside an async function. *)
Definition try_catch {A} (m : Async A) (h : error -> Async A) : Async A :=
  fun w =>
    match m w with
    | (Rejected e, w') => h e w'
    | r => r
    end.

(** [await p]. *)
Definition await {A} (p : promise A) : Async A := fun w => (p, w).

(** A synchronous expression inside an async function: a throw rejects. *)
Definition lift {A} (r : result A) : Async A :=
  fun w =>
    match r with
    | Returned a => (Resolved a, w)
    | Thrown e => (Rejected e, w)
    end.

(** [return f()] inside an async function, where [f] throws or returns a
    promise: the promise is adopted. *)
Definition adopt {A} (f : Sync (promise A)) : Async A :=
  fun w =>
    match f w with
    | (Returned p, w') => (p, w')
    | (Thrown e, w') => (Rejected e, w')
    end.

Definition emit (e : event) : Async unit := fun w => (Resolved tt, emit_in e w).

(** ** ManUpService *)

Definition getVersionNumber (h : Host) : Async string :=
  emit GetVersionNumber ;;; await (app_version h).

Definition getAppName (h : Host) : Async string :=
  emit GetAppName ;;; await (app_name h).

(** [evaluate(metadata: PlatformData)]: what kind of update is required, if
    any.  The argument is [None] when the caller passes [undefined]. *)
Definition evaluate (h : Host) (metadata : option PlatformData) : Async AlertType :=
  match metadata with
  | None => throw TypeError
  | Some pd =>
      if negb (enabled pd) then ret MAINTENANCE
      else
        version <- getVersionNumber h ;;
        below_minimum <- lift (Semver.lt version (minimum pd)) ;;
        if below_minimum : bool then ret MANDATORY
        else
          below_latest <- lift (Semver.lt version (latest pd)) ;;
          if below_latest : bool then ret OPTIONAL else ret NOP
  end.

Definition metadata_key : string := STORAGE_KEY +:+ ".manup".

(** [metadataFromStorage()]. *)
Definition metadataFromStorage : Sync (promise (option ManUpData)) :=
  fun w =>
    match storage w with
    | Some items =>
        (Returned
           match JSON.parse (items !! metadata_key) with
           | Returned data => Resolved data
           | Thrown e => Rejected e
           end,
         emit_in (StorageGet metadata_key) w)
    | None => (Thrown StorageNotConfigured, w)
    end.

(** [saveMetadata(metadata)]. *)
Definition saveMetadata (metadata : option ManUpData) : Sync (promise unit) :=
  fun w =>
    match storage w with
    | Some items =>
        let text := JSON.stringify metadata in
        (Returned (Resolved tt),
         mkWorld (Some (<[metadata_key := text]> items))
                 (trace w ++ [StorageSet metadata_key text]) (resolved w))
    | None => (Thrown StorageNotConfigured, w)
    end.

(** [if (this.storage)]. *)
Definition has_storage : Async bool :=
  fun w => (Resolved (bool_decide (is_Some (storage w))), w).

(** [f().catch(() => {})], not awaited: only a throw of [f] is seen. *)
Definition detached {A} (f : Sync (promise A)) : Async unit :=
  fun w =>
    match f w with
    | (Returned _, w') => (Resolved tt, w')
    | (Thrown e, w') => (Rejected e, w')
    end.

(** [metadata()]: the remote document, or the stored one when the remote
    retrieval fails. *)
Definition metadata (h : Host) : Async (option ManUpData) :=
  try_catch
    (body <- (emit (HttpGet (config_url h)) ;;; await (http_get h (config_url h))) ;;
     response <- lift (JSON.parse (Some body)) ;;
     configured <- has_storage ;;
     (if configured : bool then detached (saveMetadata response) else ret tt) ;;;
     ret response)
    (fun err => adopt metadataFromStorage).

(** [getPlatformData(metadata)]: the branch of the metadata relevant to this
    platform. *)
Definition getPlatformData (h : Host) (metadata : option ManUpData)
  : result (option PlatformData) :=
  match metadata with
  | None => Thrown MetadataDoesNotExist
  | Some m =>
      if platform_is h "ios" then Returned (ios m)
      else if platform_is h "android" then Returned (android m)
      else if platform_is h "windows" then Returned (windows m)
      else Thrown UnknownPlatform
  end.

(** The argument [platformData: any] of the presentations. *)
Inductive any : Type :=
  | AnyManUpData (m : ManUpData)
  | AnyPlatformData (p : PlatformData).

(** [platformData.url]; [None] is [undefined].  A document of the
    [ManUpData] interface has no [url] member of its own. *)
Definition any_url (platformData : any) : option string :=
  match platformData with
  | AnyPlatformData p => Some (url p)
  | AnyManUpData _ => None
  end.

Definition text_of (h : Host) (key name fallback : string) : string :=
  match translate h with
  | Some instant => instant key (Some name)
  | None => fallback
  end.

(** The text of a button: [instant(key)], without parameters. *)
Definition label_of (h : Host) (key fallback : string) : string :=
  match translate h with
  | Some instant => instant key None
  | None => fallback
  end.

(** [presentMaintenanceMode()]: the alert has no button and the promise it
    creates has no way to resolve. *)
Definition presentMaintenanceMode (h : Host) : Async unit :=
  name <- getAppName h ;;
  emit (AlertPresent MAINTENANCE
          (text_of h "manup.maintenance.title" name (name +:+ " Unavailable"))
          (text_of h "manup.maintenance.text" name
             (name +:+ " is currently unavailable. Please check back later"))
          []) ;;;
  await Pending.

(** The handlers of the mandatory alert, run on the user's presses. *)
Fixpoint mandatory_handlers (platformData : any) (presses : list Button) : Async unit :=
  match presses with
  | [] => await Pending
  | Update :: rest =>
      emit (BrowserCreate (any_url platformData) "_system") ;;;
      mandatory_handlers platformData rest      (* return false: alert stays *)
  | NotNow :: rest => mandatory_handlers platformData rest (* no such button *)
  end.

(** [presentMandatoryUpdate(platformData)]. *)
Definition presentMandatoryUpdate (h : Host) (platformData : any) : Async unit :=
  name <- getAppName h ;;
  emit (AlertPresent MANDATORY
          (text_of h "manup.mandatory.title" name "Update Required")
          (text_of h "manup.mandatory.text" name
             ("An update to " +:+ name +:+ " is required to continue."))
          [(Update, label_of h "manup.buttons.update" "Update")]) ;;;
  mandatory_handlers platformData (clicks h).

(** The handlers of the optional alert, run on the user's presses. *)
Fixpoint optional_handlers (platformData : any) (presses : list Button) : Async unit :=
  match presses with
  | [] => await Pending
  | NotNow :: _ => ret tt                       (* resolve() *)
  | Update :: rest =>
      emit (BrowserCreate (any_url platformData) "_system") ;;;
      optional_handlers platformData rest       (* return false: alert stays *)
  end.

(** [presentOptionalUpdate(platformData)]. *)
Definition presentOptionalUpdate (h : Host) (platformData : any) : Async unit :=
  name <- getAppName h ;;
  emit (AlertPresent OPTIONAL
          (text_of h "manup.optional.title" name "Update Available")
          (text_of h "manup.optional.text" name
             ("An update to " +:+ name +:+ " is available. Would you like to update?"))
          [(NotNow, label_of h "manup.buttons.later" "Not Now");
           (Update, label_of h "manup.buttons.update" "Update")]) ;;;
  optional_handlers platformData (clicks h).

(** [presentAlert(type, platformData)]. *)
Definition presentAlert (h : Host) (type : AlertType) (platformData : any) : Async unit :=
  match type with
  | MANDATORY => presentMandatoryUpdate h platformData
  | OPTIONAL => presentOptionalUpdate h platformData
  | MAINTENANCE => presentMaintenanceMode h
  | NOP => ret tt
  end.

(** The [resolve] function of the promise with handle [p]. *)
Definition resolve (p : nat) : Async unit :=
  fun w => (Resolved tt, mkWorld (storage w) (trace w) (p :: resolved w)).

(** The async callback that [validate] hands to [platform.ready().then];
    [p] is the promise whose executor registered it.  The promise the
    callback itself returns is dropped by [validate]. *)
Definition check (h : Host) (p : nat) : Async unit :=
  metadata <- metadata h ;;
  match metadata with
  | None => resolve p
  | Some m =>
      platformData <- lift (getPlatformData h metadata) ;;
      result <- evaluate h platformData ;;
      match result with
      | NOP => resolve p
      | _ => presentAlert h result (AnyManUpData m)
      end
  end.

(** The state of the service object: its two private fields, the number of
    promises [validate] has created, the callbacks registered on
    [platform.ready()] that have not run yet, and the world. *)
Record Service : Type := mkService {
  inProgress : bool;
  currentPromise : option nat;
  created : nat;
  waiting : list nat;
  world : World
}.

Definition new_service (w : World) : Service :=
  mkService false None 0 [] w.

(** [validate()]: the handle of [currentPromise], which the promise handed
    to the caller adopts.  Nothing in the [try] block throws (the promise
    constructor only calls [platform.ready()] and registers the callback),
    so the [catch] clause is never entered. *)
Definition validate (s : Service) : option nat * Service :=
  if negb (inProgress s) then
    let p := created s in
    (Some p,
     mkService true (Some p) (S p) (waiting s ++ [p])
               (emit_in PlatformReady (world s)))
  else (currentPromise s, s).

(** A callback registered on [platform.ready()] runs, if the platform ever
    becomes ready. *)
Definition run_callback (h : Host) (s : Service) (p : nat) : Service :=
  match platform_ready h with
  | Resolved _ =>
      mkService (inProgress s) (currentPromise s) (created s) (waiting s)
                (snd (check h p (world s)))
  | _ => s
  end.

(** The event loop turns: the registered callbacks run, in order. *)
Definition run_event_loop (h : Host) (s : Service) : Service :=
  let s' := fold_left (run_callback h) (waiting s) s in
  mkService (inProgress s') (currentPromise s') (created s') [] (world s').

(** What happens to the service over time. *)
Inductive action : Type :=
  | CallValidate
  | EventLoop.

(** The handles returned to the callers so far, and the service. *)
Definition step (h : Host) (st : list (option nat) * Service) (a : action)
  : list (option nat) * Service :=
  match a with
  | CallValidate => let '(p, s) := validate (snd st) in (fst st ++ [p], s)
  | EventLoop => (fst st, run_event_loop h (snd st))
  end.

Definition run (h : Host) (schedule : list action) (s : Service)
  : list (option nat) * Service :=
  fold_left (step h) schedule ([], s).

(** The fate of the promise behind a handle: [reject] is never used, so it
    is resolved if its [resolve] function was invoked, and pending
    otherwise. *)
Definition fate (w : World) (p : option nat) : promise unit :=
  match p with
  | Some i => if existsb (Nat.eqb i) (resolved w) then Resolved tt else Pending
  | None => Pending
  end.

(** The world a fresh service starts in. *)
Definition initial_world (store : option (gmap string string)) : World :=
  mkWorld store [] [].

(** One call of [validate()] on a fresh service, followed for ever: the fate
    of the promise it returned and the world it leaves. *)
Definition validate_once (h : Host) (store : option (gmap string string))
  : promise unit * World :=
  let '(p, s) := validate (new_service (initial_world store)) in
  let s' := run_event_loop h s in
  (fate (world s') p, world s').

(** Steps 1 to 4 of that run (readiness, metadata, platform selection,
    classification): the classification the run reaches, if it reaches
    one. *)
Definition classification (h : Host) (store : option (gmap string string))
  : promise AlertType :=
  match platform_ready h with
  | Resolved _ =>
      fst ((metadata <- metadata h ;;
            platformData <- lift (getPlatformData h metadata) ;;
            evaluate h platformData)
             (emit_in PlatformReady (initial_world store)))
  | Rejected e => Rejected e
  | Pending => Pending
  end.

(** The number of times [validate] started the pipeline, as the host sees
    it: each start asks the platform for readiness once. *)
Definition is_start (e : event) : bool :=
  match e with PlatformReady => true | _ => false end.

Definition pipeline_starts (w : World) : nat :=
  length (List.filter is_start (trace w)).

(** ** Auxiliary notions for the proofs *)

(** A piece of async code is quiet when it neither starts a pipeline nor
    resolves a promise of [validate]. *)
Definition quiet {A} (m : Async A) : Prop :=
  forall w, pipeline_starts (snd (m w)) = pipeline_starts w
            /\ resolved (snd (m w)) = resolved w.

(** What holds of the service, and of the handles [hs] given to the callers
    so far, when it started in a world with [n] pipeline starts: either
    [validate] was never called, or it was and everything since hangs on
    the one promise created then. *)
Definition single_flight (n : nat) (st : list (option nat) * Service) : Prop :=
  let '(hs, s) := st in
  (hs = [] /\ inProgress s = false /\ currentPromise s = None
   /\ created s = 0 /\ waiting s = [] /\ pipeline_starts (world s) = n)
  \/ (hs <> [] /\ Forall (fun p => p = Some 0) hs /\ inProgress s = true
      /\ currentPromise s = Some 0 /\ created s = 1
      /\ pipeline_starts (world s) = S n).

Definition is_call (a : action) : bool :=
  match a with CallValidate => true | EventLoop => false end.

(** The service once [validate()] has been called, before the event loop
    has turned: the callback of promise 0 waits. *)
Definition registered (w : World) : Service :=
  mkService true (Some 0) 1 [0] (emit_in PlatformReady w).

(** The service once the event loop has turned after that: the callback
    has run once, if the platform became ready, and nothing waits. *)
Definition ran_once (h : Host) (w : World) : Service :=
  mkService true (Some 0) 1 []
    match platform_ready h with
    | Resolved _ => snd (check h 0 (emit_in PlatformReady w))
    | _ => emit_in PlatformReady w
    end.

(** ** Notions used to state what a run does *)

(** The world in which the callback of the first [validate()] starts. *)
Definition started (store : option (gmap string string)) : World :=
  emit_in PlatformReady (initial_world store).

(** The document a run of [validate()] obtains from [metadata()]. *)
Definition fetched (h : Host) (store : option (gmap string string))
  : promise (option ManUpData) :=
  fst (metadata h (started store)).

(** Number of collaborator calls of a kind made so far. *)
Definition occurrences (p : event -> bool) (w : World) : nat :=
  length (List.filter p (trace w)).

(** Async code that makes no call of the kind [p]. *)
Definition silent {A} (p : event -> bool) (m : Async A) : Prop :=
  forall w, occurrences p (snd (m w)) = occurrences p w.

Definition is_alert (e : event) : bool :=
  match e with AlertPresent _ _ _ _ => true | _ => false end.

Definition is_browse (e : event) : bool :=
  match e with BrowserCreate _ _ => true | _ => false end.

(** The browser opened on an actual url. *)
Definition is_url_browse (e : event) : bool :=
  match e with BrowserCreate (Some _) _ => true | _ => false end.

Definition is_storage_get (e : event) : bool :=
  match e with StorageGet _ => true | _ => false end.

Definition is_storage_set (e : event) : bool :=
  match e with StorageSet _ _ => true | _ => false end.

Definition is_http (e : event) : bool :=
  match e with HttpGet _ => true | _ => false end.

Definition is_storage_access (e : event) : bool :=
  is_storage_get e || is_storage_set e.



Definition same_url (u v : option string) : bool :=
  match u, v with
  | Some a, Some b => String.eqb a b
  | None, None => true
  | _, _ => false
  end.

(** The browser opened outside the application on [u]. *)
Definition is_browse_of (u : option string) (e : event) : bool :=
  match e with
  | BrowserCreate v target => same_url u v && String.eqb target "_system"
  | _ => false
  end.

Definition is_update (b : Button) : bool :=
  match b with Update => true | NotNow => false end.

(** The Update presses that reach the optional alert: those made before
    it is dismissed by Not Now. *)
Fixpoint updates_before_dismissal (presses : list Button) : nat :=
  match presses with
  | Update :: rest => S (updates_before_dismissal rest)
  | _ => 0
  end.

(** A comparison that behaves as one of an order: swapping the arguments
    swaps the answer, and equal answers chain. *)
Definition order_like {T} (cmp : T -> T -> comparison) : Prop :=
  (forall x y, cmp y x = CompOpp (cmp x y))
  /\ (forall c x y z, cmp x y = c -> cmp y z = c -> cmp x z = c).

(** A host whose remote retrieval fails: the request is rejected, or the
    body of the response is not a JSON text. *)
Definition remote_fails (h : Host) : Prop :=
  match http_get h (config_url h) with
  | Rejected _ => True
  | Resolved body => JSONSyntax.well_formed body = false
  | Pending => False
  end.

(** A text that, if it is JSON at all, is [null] or a document of the
    [ManUpData] interface. *)
Definition typed_text (text : string) : Prop :=
  JSONSyntax.well_formed text = true ->
  exists m, JSON.parse (Some text) = Returned m.

(** A host and a storage that deliver typed texts only. *)
Definition typed_sources (h : Host) (store : option (gmap string string)) : Prop :=
  (forall body, http_get h (config_url h) = Resolved body -> typed_text body)
  /\ (forall items text,
        store = Some items -> items !! metadata_key = Some text ->
        typed_text text).

(** A version whose prerelease identifiers, when numeric, are below
    [MAX_SAFE_INTEGER]: on such versions numbers compare exactly. *)
Definition exact_identifier (i : Semver.identifier) : bool :=
  match i with
  | Semver.INum _ => true
  | Semver.IStr s => negb (Semver.numeric_text s)
  end.

Definition exact_version (v : string) : bool :=
  match Semver.parse v with
  | Some x => forallb exact_identifier (Semver.prerelease x)
  | None => false
  end.

(** A host whose remote source serves the document [m] (or [null]). *)
Definition remote_serves (h : Host) (m : option ManUpData) : Prop :=
  exists body, http_get h (config_url h) = Resolved body
               /\ JSON.parse (Some body) = Returned m.

(** ** Sample configurations, for the examples *)

Definition sample_policy : PlatformData :=
  mkPlatformData "2.0.0" "3.0.0" "https://store.example/app" true.

Definition disabled_policy : PlatformData :=
  mkPlatformData "2.0.0" "3.0.0" "https://store.example/app" false.

(** A document with an entry for ios only. *)
Definition sample_metadata : ManUpData :=
  mkManUpData (Some sample_policy) None None.


(** A host that runs on [platform] at version [version], whose remote
    source answers [remote], and whose user presses [presses]. *)
Definition sample_host (platform version : string) (remote : promise string)
    (presses : list Button) : Host :=
  mkHost "https://example.org/manup.json" (fun _ => remote) (Resolved tt)
         (String.eqb platform) (Resolved version) (Resolved "App") None presses.

Definition network_error : promise string := Rejected (External "network").

Definition serves (m : ManUpData) : promise string :=
  Resolved (JSON.stringify (Some m)).

(** * Properties *)

(** ** Version precedence *)

Section SemverOrder.
Import Semver.

Lemma string_compare_refl (s : string) : string_compare s s = Eq.
Proof.
  induction s as [|c s IH]; simpl; [reflexivity|].
  now rewrite N.compare_refl.
Qed.

Lemma compareIdentifiers_refl (i : identifier) : compareIdentifiers i i = Eq.
Proof.
  destruct i as [n|s]; simpl.
  - apply N.compare_refl.
  - destruct (numeric_text s).
    + apply N.compare_refl.
    + apply string_compare_refl.
Qed.

Lemma compare_ids_refl (l : list identifier) : compare_ids l l = Eq.
Proof.
  induction l as [|i l IH]; simpl; [reflexivity|].
  now rewrite compareIdentifiers_refl.
Qed.

Lemma compare_refl (x : SemVer) : compare x x = Eq.
Proof.
  unfold compare, compareMain, comparePre.
  rewrite !N.compare_refl.
  destruct (prerelease x) as [|i l] eqn:E; [reflexivity|].
  rewrite <- E. apply compare_ids_refl.
Qed.

(** No version precedes itself: [semver.lt(v, v)] is never true. *)
Lemma lt_irrefl (v : string) : lt v v <> Returned true.
Proof.
  unfold lt. destruct (parse v) as [x|]; [|discriminate].
  now rewrite compare_refl.
Qed.

Lemma lt_valid_refl (v : string) : valid v -> lt v v = Returned false.
Proof.
  intros [x Hx]. unfold lt. rewrite Hx. now rewrite compare_refl.
Qed.

End SemverOrder.

(** ** [JSON.parse] after [JSON.stringify] *)

Section JsonRoundTrip.
Import JSON.

Lemma append_nil (b : string) : "" +:+ b = b.
Proof. reflexivity. Qed.

Lemma append_cons (x : ascii) (a b : string) :
  String x a +:+ b = String x (a +:+ b).
Proof. reflexivity. Qed.

Lemma append_assoc (a b c : string) : (a +:+ b) +:+ c = a +:+ (b +:+ c).
Proof.
  induction a as [|x a IH]; [reflexivity|].
  rewrite !append_cons. now f_equal.
Qed.

Lemma length_append (a b : string) :
  String.length (a +:+ b) = String.length a + String.length b.
Proof.
  induction a as [|x a IH]; [reflexivity|].
  rewrite append_cons. simpl. now f_equal.
Qed.

Lemma parse_chars_escape_char (c : ascii) (t : string) :
  parse_chars (escape_char c +:+ t) = push c (parse_chars t).
Proof.
  destruct c as [[] [] [] [] [] [] [] []]; reflexivity.
Qed.

Lemma parse_chars_escape (s rest : string) :
  parse_chars (escape s +:+ String quote rest) = Some (s, rest).
Proof.
  induction s as [|c s IH]; [reflexivity|].
  cbn [escape]. rewrite append_assoc, parse_chars_escape_char, IH. reflexivity.
Qed.

Lemma quoted_append (s rest : string) :
  quoted s +:+ rest = String quote (escape s +:+ String quote rest).
Proof. unfold quoted. now rewrite append_cons, append_assoc, append_cons. Qed.

Lemma length_quoted (s : string) : 2 <= String.length (quoted s).
Proof. unfold quoted. simpl. rewrite length_append. simpl. lia. Qed.

Lemma skip_ws_cons (c : ascii) (t : string) :
  is_ws c = false -> skip_ws (String c t) = String c t.
Proof. intros E. simpl. now rewrite E. Qed.

Lemma append_nil_r (a : string) : a +:+ "" = a.
Proof.
  induction a as [|x a IH]; [reflexivity|].
  rewrite append_cons. now f_equal.
Qed.

Lemma parse_value_string (fuel : nat) (t : string) :
  parse_value (S fuel) (String quote t) =
    match parse_chars t with
    | Some (str, rest) => Some (JString str, rest)
    | None => None
    end.
Proof. reflexivity. Qed.

Lemma parse_value_object (fuel : nat) (t : string) :
  parse_value (S fuel) (String "{" (String quote t)) =
    match parse_members fuel (String quote t) with
    | Some (ms, rest) => Some (JObject ms, rest)
    | None => None
    end.
Proof. reflexivity. Qed.

Lemma parse_members_step (fuel : nat) (t : string) :
  parse_members (S fuel) (String quote t) =
    match parse_chars t with
    | None => None
    | Some (k, r1) =>
        match skip_ws r1 with
        | EmptyString => None
        | String colon r2 =>
            if (code colon =? 58)%N then
              match parse_value fuel r2 with
              | None => None
              | Some (v, r3) =>
                  match skip_ws r3 with
                  | EmptyString => None
                  | String d r4 =>
                      if (code d =? 44)%N then
                        match parse_members fuel r4 with
                        | Some (ms, r5) => Some ((k, v) :: ms, r5)
                        | None => None
                        end
                      else if (code d =? 125)%N then Some ([(k, v)], r4)
                      else None
                  end
              end
            else None
        end
    end.
Proof. reflexivity. Qed.

Lemma stringify_members_cons (k : string) (v : value) (ms : list (string * value)) :
  stringify_members stringify_value ((k, v) :: ms) =
    quoted k +:+ ":" +:+ stringify_value v +:+
    match ms with
    | [] => "}"
    | _ :: _ => "," +:+ stringify_members stringify_value ms
    end.
Proof. reflexivity. Qed.

Lemma parse_round_trip (fuel : nat) :
  (forall v rest,
      String.length (stringify_value v +:+ rest) < fuel ->
      parse_value fuel (stringify_value v +:+ rest) = Some (v, rest))
  /\ (forall k v ms rest,
        String.length (stringify_members stringify_value ((k, v) :: ms) +:+ rest) < fuel ->
        parse_members fuel (stringify_members stringify_value ((k, v) :: ms) +:+ rest)
          = Some ((k, v) :: ms, rest)).
Proof.
  induction fuel as [|fuel [IHv IHm]]; [split; intros; lia|].
  split.
  - intros v rest L. destruct v as [|[|]|s|ms].
    + reflexivity.
    + reflexivity.
    + reflexivity.
    + cbn [stringify_value]. rewrite quoted_append, parse_value_string.
      now rewrite parse_chars_escape.
    + cbn [stringify_value] in *. destruct ms as [|[k v] ms].
      * reflexivity.
      * rewrite append_assoc, append_cons, append_nil in *.
        cbn [String.length] in L.
        rewrite stringify_members_cons in *.
        rewrite (append_assoc (quoted k)), quoted_append in *.
        rewrite parse_value_object.
        rewrite <- quoted_append, <- (append_assoc (quoted k)), <- stringify_members_cons in *.
        rewrite IHm by lia. reflexivity.
  - intros k v ms rest L.
    rewrite stringify_members_cons in *.
    rewrite !append_assoc in *. rewrite quoted_append in *.
    rewrite parse_members_step, parse_chars_escape.
    rewrite append_cons, append_nil in *.
    rewrite skip_ws_cons by reflexivity.
    change (code ":" =? 58)%N with true. cbv iota.
    cbn [String.length] in L. rewrite length_append in L.
    cbn [String.length] in L.
    rewrite IHv by lia.
    destruct ms as [|[k' v'] ms].
    + reflexivity.
    + rewrite append_assoc, append_cons, append_nil.
      rewrite skip_ws_cons by reflexivity.
      change (code "," =? 44)%N with true. cbv iota.
      rewrite IHm; [reflexivity|].
      rewrite !length_append in L. rewrite length_append.
      cbn [String.length] in L. lia.
Qed.

Lemma parse_text_stringify (v : value) :
  parse_text (stringify_value v) = Returned v.
Proof.
  unfold parse_text.
  rewrite <- (append_nil_r (stringify_value v)) at 2.
  rewrite (proj1 (parse_round_trip _)); [reflexivity|].
  rewrite append_nil_r. lia.
Qed.

Lemma to_platform_of_platform (p : PlatformData) :
  to_platform (of_platform p) = Some p.
Proof. now destruct p. Qed.

Lemma to_metadata_of_metadata (m : option ManUpData) :
  to_metadata (of_metadata m) = Some m.
Proof.
  destruct m as [[[i|] [a|] [w|]]|]; try reflexivity.
  all: try destruct i; try destruct a; try destruct w; reflexivity.
Qed.

Lemma parse_stringify (m : option ManUpData) :
  parse (Some (stringify m)) = Returned m.
Proof.
  unfold parse, stringify.
  now rewrite parse_text_stringify, to_metadata_of_metadata.
Qed.

Lemma parse_null : parse None = Returned None.
Proof. reflexivity. Qed.

End JsonRoundTrip.

(** ** What the document parser accepts is JSON *)

Section ParserAcceptsJson.
Import JSON.

Lemma push_some (c : ascii) (r : option (string * string)) (str rest : string) :
  push c r = Some (str, rest) -> exists str', r = Some (str', rest).
Proof.
  destruct r as [[s t]|]; [|discriminate]. cbn. intros E.
  injection E as _ ->. now exists s.
Qed.

Lemma hex_value_is_hex (c : ascii) (n : N) :
  hex_value c = Some n -> JSONSyntax.is_hex c = true.
Proof.
  unfold hex_value, JSONSyntax.is_hex, JSONSyntax.is_digit, JSONSyntax.code, code.
  destruct ((48 <=? N_of_ascii c)%N && (N_of_ascii c <=? 57)%N); [reflexivity|].
  destruct ((97 <=? N_of_ascii c)%N && (N_of_ascii c <=? 102)%N); [reflexivity|].
  destruct ((65 <=? N_of_ascii c)%N && (N_of_ascii c <=? 70)%N); [reflexivity|].
  discriminate.
Qed.

Lemma unescape_is_escape (e c : ascii) :
  unescape e = Some c -> JSONSyntax.is_escape e = true.
Proof.
  unfold unescape, JSONSyntax.is_escape, JSONSyntax.code, code.
  repeat (destruct (_ =? _)%N; [now rewrite ?orb_true_r|]).
  discriminate.
Qed.

Lemma parse_chars_skip (n : nat) :
  forall s str rest,
    String.length s <= n ->
    parse_chars s = Some (str, rest) -> JSONSyntax.skip_chars s = Some rest.
Proof.
  induction n as [|n IH]; intros s str rest L P.
  - destruct s; [discriminate P|cbn in L; lia].
  - destruct s as [|c s]; [discriminate P|].
    cbn [parse_chars JSONSyntax.skip_chars] in *.
    change (JSONSyntax.code c) with (code c).
    destruct (code c =? 34)%N; [now injection P as _ ->|].
    destruct (code c =? 92)%N.
    + destruct s as [|e s]; [discriminate P|].
      change (JSONSyntax.code e) with (code e).
      destruct (code e =? 117)%N.
      * destruct s as [|h1 [|h2 [|h3 [|h4 r]]]]; try discriminate P.
        unfold hex4 in P.
        destruct (hex_value h1) eqn:H1; [|discriminate P].
        destruct (hex_value h2) eqn:H2; [|discriminate P].
        destruct (hex_value h3) eqn:H3; [|discriminate P].
        destruct (hex_value h4) eqn:H4; [|discriminate P].
        rewrite (hex_value_is_hex _ _ H1), (hex_value_is_hex _ _ H2),
          (hex_value_is_hex _ _ H3), (hex_value_is_hex _ _ H4).
        cbn [andb].
        destruct (_ <? 256)%N; [|discriminate P].
        apply push_some in P as [str' P].
        apply (IH r str' rest); [cbn in L; lia|exact P].
      * destruct (unescape e) as [ch|] eqn:U; [|discriminate P].
        rewrite (unescape_is_escape e ch U).
        apply push_some in P as [str' P].
        apply (IH s str' rest); [cbn in L; lia|exact P].
    + destruct (code c <? 32)%N; [discriminate P|].
      apply push_some in P as [str' P].
      apply (IH s str' rest); [cbn in L; lia|exact P].
Qed.

Lemma strip_prefix_head (p s r : string) (a : ascii) :
  strip_prefix (String a p) s = Some r -> exists s', s = String a s'.
Proof.
  destruct s as [|b s]; [discriminate|]. cbn.
  destruct (Ascii.eqb a b) eqn:E; [|discriminate].
  apply Ascii.eqb_eq in E as ->. intros _. now exists s.
Qed.

Lemma parse_literal_skip (c : ascii) (r : string) (v : value) (rest : string) :
  parse_literal (String c r) = Some (v, rest) ->
  JSONSyntax.skip_literal (String c r) = Some rest
  /\ (code c =? 91)%N = false
  /\ ((code c =? 45)%N || JSONSyntax.is_digit c) = false.
Proof.
  unfold parse_literal, JSONSyntax.skip_literal.
  destruct (strip_prefix "null" (String c r)) as [r1|] eqn:E1.
  - intros [= _ ->]. split; [reflexivity|].
    apply strip_prefix_head in E1 as [s' [= -> _]]. now split.
  - destruct (strip_prefix "true" (String c r)) as [r2|] eqn:E2.
    + intros [= _ ->]. split; [reflexivity|].
      apply strip_prefix_head in E2 as [s' [= -> _]]. now split.
    + destruct (strip_prefix "false" (String c r)) as [r3|] eqn:E3;
        [|discriminate].
      intros [= _ ->]. split; [reflexivity|].
      apply strip_prefix_head in E3 as [s' [= -> _]]. now split.
Qed.

Lemma parse_value_skip (fuel : nat) :
  (forall s v rest,
      parse_value fuel s = Some (v, rest) ->
      JSONSyntax.skip_value fuel s = Some rest)
  /\ (forall s ms rest,
        parse_members fuel s = Some (ms, rest) ->
        JSONSyntax.skip_members fuel s = Some rest).
Proof.
  induction fuel as [|fuel [IHv IHm]]; [split; intros; discriminate|].
  split.
  - intros s v rest P. cbn [parse_value JSONSyntax.skip_value] in *.
    destruct (skip_ws s) as [|c r]; [discriminate P|].
    change (JSONSyntax.code c) with (code c).
    destruct (code c =? 34)%N.
    + destruct (parse_chars r) as [[str r']|] eqn:C; [|discriminate P].
      injection P as _ ->. apply (parse_chars_skip _ r str rest (le_n _) C).
    + destruct (code c =? 123)%N.
      * destruct (skip_ws r) as [|c' r']; [discriminate P|].
        change (JSONSyntax.code c') with (code c').
        destruct (code c' =? 125)%N; [now injection P as _ ->|].
        destruct (parse_members fuel r) as [[ms r'']|] eqn:M; [|discriminate P].
        injection P as _ ->. apply (IHm r ms rest M).
      * destruct (parse_literal_skip c r v rest P) as (K & -> & ->). exact K.
  - intros s ms rest P. cbn [parse_members JSONSyntax.skip_members] in *.
    destruct (skip_ws s) as [|q r]; [discriminate P|].
    change (JSONSyntax.code q) with (code q).
    destruct (code q =? 34)%N; [|discriminate P].
    destruct (parse_chars r) as [[k r1]|] eqn:C; [|discriminate P].
    rewrite (parse_chars_skip _ r k r1 (le_n _) C).
    destruct (skip_ws r1) as [|colon r2]; [discriminate P|].
    change (JSONSyntax.code colon) with (code colon).
    destruct (code colon =? 58)%N; [|discriminate P].
    destruct (parse_value fuel r2) as [[v r3]|] eqn:V; [|discriminate P].
    rewrite (IHv r2 v r3 V).
    destruct (skip_ws r3) as [|d r4]; [discriminate P|].
    change (JSONSyntax.code d) with (code d).
    destruct (code d =? 44)%N.
    + destruct (parse_members fuel r4) as [[ms' r5]|] eqn:M; [|discriminate P].
      injection P as _ ->. apply (IHm r4 ms' rest M).
    + destruct (code d =? 125)%N; [|discriminate P]. now injection P as _ ->.
Qed.

(** A text that is not JSON makes [JSON.parse] throw a [SyntaxError]. *)
Lemma not_json_throws (text : string) :
  JSONSyntax.well_formed text = false ->
  parse (Some text) = Thrown SyntaxError.
Proof.
  unfold JSONSyntax.well_formed, parse, parse_text. intros W.
  destruct (parse_value (S (String.length text)) text) as [[v rest]|] eqn:P;
    [|reflexivity].
  rewrite (proj1 (parse_value_skip _) text v rest P) in W.
  destruct (skip_ws rest); [discriminate W|reflexivity].
Qed.

(** A text the document parser accepts is JSON. *)
Lemma parsed_is_json (text : string) (m : option ManUpData) :
  parse (Some text) = Returned m -> JSONSyntax.well_formed text = true.
Proof.
  intros P. destruct (JSONSyntax.well_formed text) eqn:W; [reflexivity|].
  rewrite (not_json_throws text W) in P. discriminate P.
Qed.

End ParserAcceptsJson.

(** ** The decision engine *)

Lemma evaluate_disabled (h : Host) (pd : PlatformData) (w : World) :
  enabled pd = false -> evaluate h (Some pd) w = (Resolved MAINTENANCE, w).
Proof. intros E. unfold evaluate. now rewrite E. Qed.

Lemma evaluate_enabled (h : Host) (pd : PlatformData) (w : World) (v : string) :
  enabled pd = true -> app_version h = Resolved v ->
  evaluate h (Some pd) w =
    (match Semver.lt v (minimum pd) with
     | Thrown e => Rejected e
     | Returned true => Resolved MANDATORY
     | Returned false =>
         match Semver.lt v (latest pd) with
         | Thrown e => Rejected e
         | Returned true => Resolved OPTIONAL
         | Returned false => Resolved NOP
         end
     end, emit_in GetVersionNumber w).
Proof.
  intros E V. unfold evaluate, getVersionNumber, bind, emit, await, lift, ret.
  rewrite E, V. simpl.
  destruct (Semver.lt v (minimum pd)) as [[|]|]; try reflexivity.
  destruct (Semver.lt v (latest pd)) as [[|]|]; reflexivity.
Qed.

(** C1. [evaluate] is the four-step decision: a disabled policy is
    MAINTENANCE whatever the version provider would answer, and the version
    is not even asked for (the world is left as it was); for an enabled
    policy and running version [v], MANDATORY when [v] is strictly below
    [minimum], else OPTIONAL when [v] is strictly below [latest], else NOP;
    and a version equal to [minimum] is never MANDATORY, a version equal to
    [latest] never OPTIONAL. *)
Theorem evaluate_four_steps (h : Host) (pd : PlatformData) (w : World) :
  (enabled pd = false -> evaluate h (Some pd) w = (Resolved MAINTENANCE, w))
  /\ (forall v : string,
        enabled pd = true -> app_version h = Resolved v ->
        (Semver.lt v (minimum pd) = Returned true ->
           fst (evaluate h (Some pd) w) = Resolved MANDATORY)
        /\ (Semver.lt v (minimum pd) = Returned false ->
            Semver.lt v (latest pd) = Returned true ->
              fst (evaluate h (Some pd) w) = Resolved OPTIONAL)
        /\ (Semver.lt v (minimum pd) = Returned false ->
            Semver.lt v (latest pd) = Returned false ->
              fst (evaluate h (Some pd) w) = Resolved NOP)
        /\ (v = minimum pd -> fst (evaluate h (Some pd) w) <> Resolved MANDATORY)
        /\ (v = latest pd -> fst (evaluate h (Some pd) w) <> Resolved OPTIONAL)).
Proof.
  split; [apply evaluate_disabled|].
  intros v E V. rewrite (evaluate_enabled h pd w v E V). simpl.
  repeat split.
  - now intros ->.
  - now intros -> ->.
  - now intros -> ->.
  - intros ->. pose proof (lt_irrefl (minimum pd)) as I.
    destruct (Semver.lt (minimum pd) (minimum pd)) as [[|]|]; try congruence.
    destruct (Semver.lt (minimum pd) (latest pd)) as [[|]|]; congruence.
  - intros ->. pose proof (lt_irrefl (latest pd)) as I.
    destruct (Semver.lt (latest pd) (minimum pd)) as [[|]|]; try congruence.
    destruct (Semver.lt (latest pd) (latest pd)) as [[|]|]; congruence.
Qed.

Lemma evaluate_four_steps_witness :
  evaluate (sample_host "ios" "9.9.9" Pending []) (Some disabled_policy)
           (initial_world None)
    = (Resolved MAINTENANCE, initial_world None)
  /\ fst (evaluate (sample_host "ios" "1.9.9" Pending []) (Some sample_policy)
                   (initial_world None)) = Resolved MANDATORY
  /\ fst (evaluate (sample_host "ios" "2.0.0" Pending []) (Some sample_policy)
                   (initial_world None)) = Resolved OPTIONAL
  /\ fst (evaluate (sample_host "ios" "3.0.0" Pending []) (Some sample_policy)
                   (initial_world None)) = Resolved NOP.
Proof.
  split; [|split; [|split]].
  - refine (proj1 (evaluate_four_steps _ _ _) _). reflexivity.
  - refine (proj1 (proj2 (evaluate_four_steps _ _ _) "1.9.9" _ _) _);
      reflexivity.
  - refine (proj1 (proj2 (proj2 (evaluate_four_steps _ _ _) "2.0.0" _ _)) _ _);
      reflexivity.
  - refine (proj1 (proj2 (proj2 (proj2 (evaluate_four_steps _ _ _) "3.0.0" _ _))) _ _);
      reflexivity.
Defined.

(** ** The metadata store *)

(** C10. With a storage collaborator that is a key-value map,
    [saveMetadata(m)] writes the text of [m] under the one key
    ['com.nextfaze.ionic-manup.manup'], and [metadataFromStorage()] called
    after it resolves with [m] again. *)
Theorem save_then_load (m : option ManUpData) (w : World)
    (items : gmap string string) :
  storage w = Some items ->
  fst (saveMetadata m w) = Returned (Resolved tt)
  /\ storage (snd (saveMetadata m w))
     = Some (<["com.nextfaze.ionic-manup.manup" := JSON.stringify m]> items)
  /\ fst (metadataFromStorage (snd (saveMetadata m w))) = Returned (Resolved m).
Proof.
  intros E. unfold saveMetadata, metadataFromStorage. rewrite E. simpl.
  repeat split.
  rewrite lookup_insert_eq. now rewrite parse_stringify.
Qed.

Lemma save_then_load_witness :
  fst (metadataFromStorage
         (snd (saveMetadata (Some sample_metadata) (initial_world (Some ∅)))))
  = Returned (Resolved (Some sample_metadata)).
Proof.
  apply (save_then_load (Some sample_metadata) (initial_world (Some ∅)) ∅).
  reflexivity.
Defined.

(** C5. When the remote retrieval fails, by a network error or by a body
    that is not JSON, and the storage holds under the metadata key a text
    that deserializes to the document [m] (such as the text written by an
    earlier [saveMetadata(m)]), [metadata()] resolves with [m] instead of
    failing. *)
Theorem metadata_falls_back (h : Host) (w : World) (items : gmap string string)
    (text : string) (m : option ManUpData) :
  storage w = Some items ->
  items !! metadata_key = Some text ->
  JSON.parse (Some text) = Returned m ->
  remote_fails h ->
  fst (metadata h w) = Resolved m.
Proof.
  intros E L P F.
  unfold metadata, try_catch, bind, emit, await, lift, adopt, metadataFromStorage.
  unfold remote_fails in F.
  destruct (http_get h (config_url h)) as [body|e|]; cbn [fst snd].
  - rewrite (not_json_throws body F). cbn [fst snd storage emit_in].
    now rewrite E, L, P.
  - cbn [storage emit_in]. now rewrite E, L, P.
  - destruct F.
Qed.

Lemma metadata_falls_back_witness :
  fst (metadata (sample_host "ios" "1.0.0" network_error [])
         (snd (saveMetadata (Some sample_metadata) (initial_world (Some ∅)))))
  = Resolved (Some sample_metadata)
  /\ fst (metadata (sample_host "ios" "1.0.0" (Resolved "<html>") [])
            (initial_world
               (Some {[metadata_key := "{ }"]})))
     = Resolved (Some (mkManUpData None None None)).
Proof.
  split.
  - apply (metadata_falls_back _ _
             (<[metadata_key := JSON.stringify (Some sample_metadata)]> ∅)
             (JSON.stringify (Some sample_metadata))).
    + reflexivity.
    + apply lookup_insert_eq.
    + apply parse_stringify.
    + exact I.
  - apply (metadata_falls_back _ _ {[metadata_key := "{ }"]} "{ }").
    + reflexivity.
    + apply lookup_singleton_eq.
    + reflexivity.
    + reflexivity.
Defined.

(** C9, as the code has it. With a storage configured that holds nothing
    under the metadata key, [metadataFromStorage()] returns a promise
    resolved with [null]; with no storage configured it throws
    'Storage not configured'. *)
Theorem metadataFromStorage_outcomes (w : World) :
  (forall items : gmap string string,
      storage w = Some items -> items !! metadata_key = None ->
      fst (metadataFromStorage w) = Returned (Resolved None))
  /\ (storage w = None ->
      fst (metadataFromStorage w) = Thrown StorageNotConfigured).
Proof.
  unfold metadataFromStorage. split.
  - intros items E L. rewrite E, L. reflexivity.
  - intros E. now rewrite E.
Qed.

Lemma metadataFromStorage_outcomes_witness :
  fst (metadataFromStorage (initial_world (Some ∅))) = Returned (Resolved None)
  /\ fst (metadataFromStorage (initial_world None)) = Thrown StorageNotConfigured.
Proof.
  split.
  - apply (proj1 (metadataFromStorage_outcomes (initial_world (Some ∅))) ∅);
      reflexivity.
  - apply (proj2 (metadataFromStorage_outcomes (initial_world None))).
    reflexivity.
Defined.

(** C9, as the specification has it, fails: on an empty storage
    [metadataFromStorage()] neither throws nor returns a rejected promise. *)
Lemma empty_storage_is_no_error :
  ~ (exists e : error,
       fst (metadataFromStorage (initial_world (Some ∅))) = Thrown e
       \/ fst (metadataFromStorage (initial_world (Some ∅))) = Returned (Rejected e)).
Proof. intros [e [H|H]]; discriminate H. Qed.

(** ** Quiet code *)

Lemma pipeline_starts_emit (e : event) (w : World) :
  pipeline_starts (emit_in e w) = pipeline_starts w + (if is_start e then 1 else 0).
Proof.
  unfold pipeline_starts, emit_in. simpl.
  rewrite List.filter_app, length_app. simpl. now destruct (is_start e).
Qed.

Lemma quiet_ret {A} (a : A) : quiet (ret a).
Proof. now intros w. Qed.

Lemma quiet_throw {A} (e : error) : quiet (@throw A e).
Proof. now intros w. Qed.

Lemma quiet_await {A} (p : promise A) : quiet (await p).
Proof. now intros w. Qed.

Lemma quiet_lift {A} (r : result A) : quiet (lift r).
Proof. intros w. unfold lift. now destruct r. Qed.

Lemma quiet_emit (e : event) : is_start e = false -> quiet (emit e).
Proof.
  intros E w. unfold emit. simpl. rewrite pipeline_starts_emit, E.
  split; [lia|reflexivity].
Qed.

Lemma quiet_bind {A B} (m : Async A) (f : A -> Async B) :
  quiet m -> (forall a, quiet (f a)) -> quiet (bind m f).
Proof.
  intros Hm Hf w. unfold bind. specialize (Hm w).
  destruct (m w) as [[a| |] w']; simpl in *; try assumption.
  destruct (Hf a w') as [H1 H2]. destruct Hm as [H3 H4]. split; congruence.
Qed.

Lemma quiet_try_catch {A} (m : Async A) (k : error -> Async A) :
  quiet m -> (forall e, quiet (k e)) -> quiet (try_catch m k).
Proof.
  intros Hm Hk w. unfold try_catch. specialize (Hm w).
  destruct (m w) as [[a|e|] w']; simpl in *; try assumption.
  destruct (Hk e w') as [H1 H2]. destruct Hm as [H3 H4]. split; congruence.
Qed.

Lemma quiet_has_storage : quiet has_storage.
Proof. now intros w. Qed.

Lemma quiet_metadataFromStorage : quiet (adopt metadataFromStorage).
Proof.
  intros w. unfold adopt, metadataFromStorage.
  destruct (storage w); simpl; [|now split].
  rewrite pipeline_starts_emit. simpl. split; [lia|reflexivity].
Qed.

Lemma quiet_saveMetadata (m : option ManUpData) : quiet (detached (saveMetadata m)).
Proof.
  intros w. unfold detached, saveMetadata.
  destruct (storage w); simpl; [|now split].
  split; [|reflexivity].
  unfold pipeline_starts. simpl. rewrite List.filter_app, length_app. simpl. lia.
Qed.

Create HintDb quiet.
#[local] Hint Resolve quiet_ret quiet_throw quiet_await quiet_lift quiet_emit
  quiet_has_storage quiet_metadataFromStorage quiet_saveMetadata : quiet.

Ltac quiet_step :=
  first
    [ apply quiet_bind; [|intros ?]
    | apply quiet_try_catch; [|intros ?]
    | apply quiet_emit; reflexivity
    | match goal with
      | |- quiet (match ?x with _ => _ end) => destruct x
      end
    | solve [auto with quiet] ].

Ltac quiet_all := repeat quiet_step.

Lemma quiet_metadata (h : Host) : quiet (metadata h).
Proof. unfold metadata. quiet_all. Qed.

Lemma quiet_evaluate (h : Host) (pd : option PlatformData) : quiet (evaluate h pd).
Proof. unfold evaluate, getVersionNumber. quiet_all. Qed.

Lemma quiet_handlers (platformData : any) (presses : list Button) :
  quiet (mandatory_handlers platformData presses)
  /\ quiet (optional_handlers platformData presses).
Proof.
  induction presses as [|[|] presses [IHm IHo]]; simpl; split; quiet_all;
    assumption.
Qed.

Lemma quiet_presentAlert (h : Host) (type : AlertType) (platformData : any) :
  quiet (presentAlert h type platformData).
Proof.
  destruct (quiet_handlers platformData (clicks h)).
  unfold presentAlert, presentMandatoryUpdate, presentOptionalUpdate,
    presentMaintenanceMode, getAppName.
  destruct type; quiet_all; assumption.
Qed.

(** ** The callback of [validate] *)

Lemma starts_bind {A B} (m : Async A) (f : A -> Async B) :
  (forall w, pipeline_starts (snd (m w)) = pipeline_starts w) ->
  (forall a w, pipeline_starts (snd (f a w)) = pipeline_starts w) ->
  forall w, pipeline_starts (snd (bind m f w)) = pipeline_starts w.
Proof.
  intros Hm Hf w. unfold bind. specialize (Hm w).
  destruct (m w) as [[a| |] w']; cbn [snd] in *; [|exact Hm..].
  now rewrite Hf.
Qed.

Lemma check_starts_nothing (h : Host) (p : nat) (w : World) :
  pipeline_starts (snd (check h p w)) = pipeline_starts w.
Proof.
  revert w. unfold check.
  apply starts_bind; [intros w; apply (quiet_metadata h)|].
  intros [m|]; [|reflexivity].
  apply starts_bind; [intros w; apply (quiet_lift (getPlatformData h (Some m)))|].
  intros pd.
  apply starts_bind; [intros w; apply (quiet_evaluate h pd)|].
  intros c w.
  destruct c; try reflexivity; apply (quiet_presentAlert h).
Qed.

Lemma validate_once_eq (h : Host) (store : option (gmap string string)) :
  validate_once h store =
    match platform_ready h with
    | Resolved _ =>
        let w := snd (check h 0 (emit_in PlatformReady (initial_world store))) in
        (fate w (Some 0), w)
    | _ => (Pending, emit_in PlatformReady (initial_world store))
    end.
Proof.
  unfold validate_once, run_event_loop, run_callback. simpl.
  destruct (platform_ready h); reflexivity.
Qed.


(** The presentations of the two blocking alerts never resolve. *)
Lemma mandatory_handlers_block (platformData : any) (presses : list Button) (w : World) :
  fst (mandatory_handlers platformData presses w) = Pending.
Proof.
  revert w. induction presses as [|[|] presses IH]; intros w; simpl.
  - reflexivity.
  - apply IH.
  - unfold bind, emit. simpl. apply IH.
Qed.

Lemma blocking_presentations (h : Host) (platformData : any) (w : World) :
  fst (presentMandatoryUpdate h platformData w) <> Resolved tt
  /\ fst (presentMaintenanceMode h w) <> Resolved tt.
Proof.
  unfold presentMandatoryUpdate, presentMaintenanceMode, getAppName, bind, emit, await.
  cbn [fst snd]. destruct (app_name h); cbn [fst snd]; try (split; discriminate).
  rewrite mandatory_handlers_block. split; discriminate.
Qed.

(** ** Single flight *)

Lemma run_callback_fields (h : Host) (s : Service) (p : nat) :
  inProgress (run_callback h s p) = inProgress s
  /\ currentPromise (run_callback h s p) = currentPromise s
  /\ created (run_callback h s p) = created s
  /\ pipeline_starts (world (run_callback h s p)) = pipeline_starts (world s).
Proof.
  unfold run_callback. destruct (platform_ready h); simpl; repeat split.
  apply check_starts_nothing.
Qed.

Lemma run_event_loop_fields (h : Host) (s : Service) :
  inProgress (run_event_loop h s) = inProgress s
  /\ currentPromise (run_event_loop h s) = currentPromise s
  /\ created (run_event_loop h s) = created s
  /\ waiting (run_event_loop h s) = []
  /\ pipeline_starts (world (run_event_loop h s)) = pipeline_starts (world s).
Proof.
  unfold run_event_loop. simpl. generalize (waiting s) as l. intros l.
  revert s. induction l as [|p l IH]; intros s; simpl.
  - repeat split.
  - destruct (IH (run_callback h s p)) as (I1 & I2 & I3 & I4 & I5).
    destruct (run_callback_fields h s p) as (R1 & R2 & R3 & R4).
    repeat split; congruence.
Qed.

Lemma step_single_flight (h : Host) (n : nat) (st : list (option nat) * Service)
    (a : action) :
  single_flight n st -> single_flight n (step h st a).
Proof.
  destruct st as [hs s]. intros I. destruct a; cbn [step fst snd].
  - unfold validate.
    destruct I as [(H1 & H2 & H3 & H4 & H5 & H6)|(H1 & H2 & H3 & H4 & H5 & H6)].
    + rewrite H2. cbn [negb]. right. subst hs. rewrite H4.
      cbn [inProgress currentPromise created world app].
      repeat split; try reflexivity.
      * discriminate.
      * repeat constructor.
      * rewrite pipeline_starts_emit, H6. cbn [is_start]. lia.
    + rewrite H3. cbn [negb]. right. repeat split; try assumption.
      * intros E. now apply app_eq_nil in E as [? _].
      * apply Forall_app. split; [assumption|]. now repeat constructor.
  - destruct (run_event_loop_fields h s) as (R1 & R2 & R3 & R4 & R5).
    destruct I as [(H1 & H2 & H3 & H4 & H5 & H6)|(H1 & H2 & H3 & H4 & H5 & H6)];
      [left|right]; rewrite R1, R2, R3, R5, ?R4; repeat split; assumption.
Qed.

Lemma run_single_flight (h : Host) (n : nat) (schedule : list action)
    (st : list (option nat) * Service) :
  single_flight n st -> single_flight n (fold_left (step h) schedule st).
Proof.
  revert st. induction schedule as [|a schedule IH]; intros st I; simpl.
  - assumption.
  - apply IH. now apply step_single_flight.
Qed.

Lemma step_in_progress (h : Host) (st : list (option nat) * Service) (a : action) :
  inProgress (snd st) = true -> inProgress (snd (step h st a)) = true.
Proof.
  destruct st as [hs s]. cbn [snd]. intros E. destruct a; cbn [step fst snd].
  - unfold validate. now rewrite E.
  - destruct (run_event_loop_fields h s) as (R & _). now rewrite R.
Qed.

Lemma run_handles (h : Host) (schedule : list action)
    (st : list (option nat) * Service) :
  length (fst (fold_left (step h) schedule st))
  = length (fst st) + length (List.filter is_call schedule).
Proof.
  revert st. induction schedule as [|a schedule IH]; intros st; simpl.
  - lia.
  - rewrite IH. destruct a; cbn [step is_call List.filter].
    + destruct (validate (snd st)). cbn [fst length]. rewrite length_app.
      cbn [length]. lia.
    + cbn [fst]. lia.
Qed.

Lemma metadata_without_cache (h : Host) (w : World) :
  storage w = None ->
  remote_fails h ->
  metadata h w = (Rejected StorageNotConfigured, emit_in (HttpGet (config_url h)) w).
Proof.
  intros E F. unfold remote_fails in F.
  unfold metadata, try_catch, bind, emit, await, lift, adopt, metadataFromStorage.
  cbn [fst snd].
  destruct (http_get h (config_url h)) as [body| |]; cbn [storage emit_in].
  - rewrite (not_json_throws body F). cbn [storage emit_in]. now rewrite E.
  - now rewrite E.
  - destruct F.
Qed.

Lemma optional_handlers_not_now (platformData : any) (presses : list Button) (w : World) :
  In NotNow presses -> fst (optional_handlers platformData presses w) = Resolved tt.
Proof.
  revert w. induction presses as [|b presses IH]; intros w I; [destruct I|].
  destruct b; [reflexivity|].
  destruct I as [I|I]; [discriminate I|].
  cbn [optional_handlers]. unfold bind, emit. cbn [fst snd]. now apply IH.
Qed.

(** ** The claims on [validate] and on platform selection *)

Lemma run_idle (h : Host) (w : World) (pre : list action) (hs : list (option nat)) :
  existsb is_call pre = false ->
  fold_left (step h) pre (hs, new_service w) = (hs, new_service w).
Proof.
  induction pre as [|a pre IH]; intros E; [reflexivity|].
  destruct a; [discriminate E|]. cbn [fold_left]. now apply IH.
Qed.

Lemma step_ran_once (h : Host) (w : World) (hs : list (option nat)) (a : action) :
  snd (step h (hs, ran_once h w) a) = ran_once h w.
Proof. destruct a; reflexivity. Qed.

Lemma run_ran_once (h : Host) (w : World) (post : list action)
    (hs : list (option nat)) :
  snd (fold_left (step h) post (hs, ran_once h w)) = ran_once h w.
Proof.
  revert hs. induction post as [|a post IH]; intros hs; [reflexivity|].
  cbn [fold_left].
  rewrite (surjective_pairing (step h (hs, ran_once h w) a)), step_ran_once.
  apply IH.
Qed.

Lemma event_loop_registered (h : Host) (w : World) :
  run_event_loop h (registered w) = ran_once h w.
Proof.
  unfold run_event_loop, registered, ran_once, run_callback.
  cbn [waiting fold_left world].
  now destruct (platform_ready h).
Qed.

Lemma run_registered (h : Host) (w : World) (post : list action)
    (hs : list (option nat)) :
  (In EventLoop post ->
     snd (fold_left (step h) post (hs, registered w)) = ran_once h w)
  /\ (~ In EventLoop post ->
      snd (fold_left (step h) post (hs, registered w)) = registered w).
Proof.
  revert hs. induction post as [|a post IH]; intros hs.
  - split; [intros []|reflexivity].
  - destruct a; cbn [fold_left].
    + change (step h (hs, registered w) CallValidate)
        with (hs ++ [Some 0], registered w).
      destruct (IH (hs ++ [Some 0])) as [I1 I2]. split.
      * intros [D|I]; [discriminate D|now apply I1].
      * intros N. apply I2. intros I. apply N. now right.
    + change (step h (hs, registered w) EventLoop)
        with (hs, run_event_loop h (registered w)).
      rewrite event_loop_registered. split.
      * intros _. apply run_ran_once.
      * intros N. destruct N. now left.
Qed.

(** C3. Whatever the order in which callers invoke [validate()] and the
    event loop turns: every call returns the promise created by the first
    one, so all callers see one fate; the in-progress flag, once set, stays
    set; one promise is created and the pipeline is started once at most;
    a call on a service in progress changes nothing; and the service ends
    exactly where one registration of the callback and one run of it lead,
    whatever the number of calls and of turns. *)
Theorem validate_single_flight (h : Host) (schedule : list action) (w : World) :
  let handles := fst (run h schedule (new_service w)) in
  let s := snd (run h schedule (new_service w)) in
  length handles = length (List.filter is_call schedule)
  /\ Forall (fun p => p = Some 0) handles
  /\ (forall p q, In p handles -> In q handles ->
        p = q /\ fate (world s) p = fate (world s) q)
  /\ (handles <> [] ->
        inProgress s = true /\ currentPromise s = Some 0
        /\ pipeline_starts (world s) = S (pipeline_starts w))
  /\ (handles = [] -> pipeline_starts (world s) = pipeline_starts w)
  /\ created s <= 1
  /\ (forall st a, inProgress (snd st) = true ->
        inProgress (snd (step h st a)) = true)
  /\ (forall s', inProgress s' = true -> validate s' = (currentPromise s', s'))
  /\ (existsb is_call schedule = false -> s = new_service w)
  /\ (forall pre post,
        schedule = pre ++ CallValidate :: post ->
        existsb is_call pre = false ->
        (In EventLoop post -> s = ran_once h w)
        /\ (~ In EventLoop post -> s = registered w)).
Proof.
  intros handles s.
  assert (I : single_flight (pipeline_starts w) (handles, s)).
  { unfold handles, s. rewrite <- surjective_pairing. unfold run.
    apply run_single_flight. left. repeat split. }
  assert (F : Forall (fun p => p = Some 0) handles).
  { destruct I as [(-> & _)|(_ & F & _)]; [constructor|exact F]. }
  split; [|split; [exact F|split; [|split; [|split; [|split; [|split;
    [|split; [|split]]]]]]]].
  - unfold handles, run. now rewrite run_handles.
  - intros p q Hp Hq. rewrite List.Forall_forall in F.
    rewrite (F p Hp), (F q Hq). now split.
  - intros N. destruct I as [(E & _)|(_ & _ & I1 & I2 & _ & I3)];
      [now destruct N|now repeat split].
  - intros E. destruct I as [(_ & _ & _ & _ & _ & I)|(N & _)];
      [exact I|now destruct N].
  - destruct I as [(_ & _ & _ & -> & _)|(_ & _ & _ & _ & -> & _)]; lia.
  - intros st a. apply step_in_progress.
  - intros s' E. unfold validate. now rewrite E.
  - intros E. unfold s, run. now rewrite (run_idle h w schedule [] E).
  - intros pre post -> E. unfold s, run.
    rewrite fold_left_app, (run_idle h w pre [] E). cbn [fold_left].
    change (step h ([], new_service w) CallValidate)
      with ([] ++ [Some 0], registered w).
    apply run_registered.
Qed.

Lemma validate_single_flight_witness :
  fst (run (sample_host "ios" "3.0.0" (serves sample_metadata) [])
           [CallValidate; CallValidate; EventLoop; CallValidate; EventLoop]
           (new_service (initial_world None)))
  = [Some 0; Some 0; Some 0]
  /\ snd (run (sample_host "ios" "3.0.0" (serves sample_metadata) [])
              [CallValidate; CallValidate; EventLoop; CallValidate; EventLoop]
              (new_service (initial_world None)))
     = ran_once (sample_host "ios" "3.0.0" (serves sample_metadata) [])
                (initial_world None).
Proof.
  split; [vm_compute; reflexivity|].
  destruct (validate_single_flight
              (sample_host "ios" "3.0.0" (serves sample_metadata) [])
              [CallValidate; CallValidate; EventLoop; CallValidate; EventLoop]
              (initial_world None))
    as (_ & _ & _ & _ & _ & _ & _ & _ & _ & K).
  apply (K [] [CallValidate; EventLoop; CallValidate; EventLoop]
           eq_refl eq_refl).
  right. now left.
Defined.



(** C2, on the code. When the remote retrieval fails, by a network error
    or by a body that is not JSON, and no storage is configured,
    [metadata()] rejects inside the callback, [resolve] is never invoked,
    and the promise returned by [validate()] stays pending: the gate does
    not fail open. *)
Theorem remote_failure_without_cache_hangs (h : Host) :
  remote_fails h ->
  fst (validate_once h None) = Pending.
Proof.
  intros F. rewrite validate_once_eq.
  destruct (platform_ready h) as [[]| |]; [|reflexivity..].
  cbn [fst snd]. unfold check, bind.
  rewrite (metadata_without_cache h (emit_in PlatformReady (initial_world None))
             eq_refl F).
  reflexivity.
Qed.

Lemma remote_failure_without_cache_hangs_witness :
  fst (validate_once (sample_host "ios" "3.0.0" network_error []) None) = Pending
  /\ fst (validate_once (sample_host "ios" "3.0.0" (Resolved "<html>") []) None)
     = Pending.
Proof.
  split.
  - apply (remote_failure_without_cache_hangs
             (sample_host "ios" "3.0.0" network_error [])).
    exact I.
  - apply (remote_failure_without_cache_hangs
             (sample_host "ios" "3.0.0" (Resolved "<html>") [])).
    reflexivity.
Defined.



(** C7, on the code. On an OPTIONAL run where the user presses Update,
    [presentAlert] is handed the whole metadata document instead of the
    policy of the platform: the browser is opened with [undefined], not
    with the policy's url, and the promise of [validate()] stays pending. *)
Theorem update_opens_undefined_url :
  classification (sample_host "ios" "2.5.0" (serves sample_metadata) [Update]) None
    = Resolved OPTIONAL
  /\ getPlatformData (sample_host "ios" "2.5.0" (serves sample_metadata) [Update])
       (Some sample_metadata) = Returned (Some sample_policy)
  /\ last (trace (snd (validate_once
                         (sample_host "ios" "2.5.0" (serves sample_metadata) [Update])
                         None)))
     = Some (BrowserCreate None "_system")
  /\ last (trace (snd (validate_once
                         (sample_host "ios" "2.5.0" (serves sample_metadata) [Update])
                         None)))
     <> Some (BrowserCreate (Some (url sample_policy)) "_system")
  /\ fst (validate_once
            (sample_host "ios" "2.5.0" (serves sample_metadata) [Update; NotNow])
            None) = Pending.
Proof.
  repeat split; try (vm_compute; reflexivity).
  vm_compute. discriminate.
Qed.

(** C4, as the code has it. [getPlatformData] throws
    'metadata does not exist' when there is no document and
    'Unknown platform' when the platform is none of ios, android and
    windows; on a recognized platform it returns the entry of the first
    of them that the platform is, as it stands in the document, present or
    absent. *)
Theorem getPlatformData_outcomes (h : Host) :
  getPlatformData h None = Thrown MetadataDoesNotExist
  /\ (forall m, platform_is h "ios" = false -> platform_is h "android" = false ->
        platform_is h "windows" = false ->
        getPlatformData h (Some m) = Thrown UnknownPlatform)
  /\ (forall m, platform_is h "ios" = true ->
        getPlatformData h (Some m) = Returned (ios m))
  /\ (forall m, platform_is h "ios" = false -> platform_is h "android" = true ->
        getPlatformData h (Some m) = Returned (android m))
  /\ (forall m, platform_is h "ios" = false -> platform_is h "android" = false ->
        platform_is h "windows" = true ->
        getPlatformData h (Some m) = Returned (windows m)).
Proof.
  unfold getPlatformData. repeat split.
  - now intros m -> -> ->.
  - now intros m ->.
  - now intros m -> ->.
  - now intros m -> -> ->.
Qed.

Lemma getPlatformData_outcomes_witness :
  getPlatformData (sample_host "plan9" "1.0.0" Pending []) (Some sample_metadata)
    = Thrown UnknownPlatform
  /\ getPlatformData (sample_host "android" "1.0.0" Pending []) (Some sample_metadata)
     = Returned None.
Proof.
  split.
  - apply (proj1 (proj2 (getPlatformData_outcomes
                           (sample_host "plan9" "1.0.0" Pending []))));
      reflexivity.
  - apply (proj1 (proj2 (proj2 (proj2 (getPlatformData_outcomes
                           (sample_host "android" "1.0.0" Pending []))))));
      reflexivity.
Defined.

(** C4, as the specification has it, fails: on android, with a document that
    has an entry for ios only, [getPlatformData] returns the absent entry
    and throws nothing. *)
Lemma absent_entry_is_returned :
  getPlatformData (sample_host "android" "1.0.0" Pending []) (Some sample_metadata)
    = Returned None
  /\ getPlatformData (sample_host "android" "1.0.0" Pending []) (Some sample_metadata)
     <> Thrown UnknownPlatform.
Proof. split; [reflexivity|discriminate]. Qed.

(** * Further properties of the service *)

(** ** When the promise of [validate()] resolves *)

Lemma fate_resolved_nil (p : option nat) : fate (mkWorld None [] []) p = Pending.
Proof. destruct p; reflexivity. Qed.

Lemma fate_of_resolved (w : World) (i : nat) :
  fate w (Some i) = if existsb (Nat.eqb i) (resolved w) then Resolved tt else Pending.
Proof. reflexivity. Qed.

Lemma resolved_started (store : option (gmap string string)) :
  resolved (started store) = [].
Proof. reflexivity. Qed.

(** The fate of the promise, read off the steps of the run. *)
Lemma validate_once_fate (h : Host) (store : option (gmap string string)) :
  fst (validate_once h store) =
    match platform_ready h with
    | Resolved _ =>
        match fetched h store with
        | Resolved None => Resolved tt
        | Resolved (Some _) =>
            match classification h store with
            | Resolved NOP => Resolved tt
            | _ => Pending
            end
        | _ => Pending
        end
    | _ => Pending
    end.
Proof.
  rewrite validate_once_eq. unfold classification, fetched.
  fold (started store).
  destruct (platform_ready h) as [u| |]; [|reflexivity..].
  cbn [fst snd]. rewrite fate_of_resolved. unfold check, bind.
  pose proof (proj2 (quiet_metadata h (started store))) as M.
  rewrite resolved_started in M.
  destruct (metadata h (started store)) as [[[m|]| |] w1]; cbn [fst snd] in *;
    [|reflexivity|now rewrite M..].
  pose proof (proj2 (quiet_lift (getPlatformData h (Some m)) w1)) as G.
  destruct (lift (getPlatformData h (Some m)) w1) as [[pd| |] w2];
    cbn [fst snd] in *; [|now rewrite G, M..].
  pose proof (proj2 (quiet_evaluate h pd w2)) as E.
  destruct (evaluate h pd w2) as [[c| |] w3]; cbn [fst snd] in *;
    [|now rewrite E, G, M..].
  pose proof (proj2 (quiet_presentAlert h c (AnyManUpData m) w3)) as P.
  destruct c; [now rewrite P, E, G, M..|reflexivity].
Qed.

Lemma classification_needs_document (h : Host)
    (store : option (gmap string string)) (c : AlertType) :
  classification h store = Resolved c ->
  exists m, fetched h store = Resolved (Some m).
Proof.
  unfold classification, fetched. fold (started store).
  destruct (platform_ready h); [|discriminate..].
  unfold bind.
  destruct (metadata h (started store)) as [[[m|]| |] w1]; cbn [fst snd];
    try discriminate.
  intros _. now exists m.
Qed.

(** X1. For sources that deliver documents of the [ManUpData] interface
    (every text that is JSON is [null] or such a document), the promise
    returned by [validate()] resolves exactly when the platform becomes
    ready and then either [metadata()] resolves with no document, or the
    run classifies as NOP; in every other case it stays pending. *)
Theorem validate_resolves_iff (h : Host) (store : option (gmap string string)) :
  typed_sources h store ->
  fst (validate_once h store) = Resolved tt
  <-> (exists u, platform_ready h = Resolved u)
      /\ (fetched h store = Resolved None
          \/ classification h store = Resolved NOP).
Proof.
  intros _. rewrite validate_once_fate.
  destruct (platform_ready h) as [u| |];
    [|split; [discriminate|intros [[u U] _]; discriminate U]..].
  destruct (fetched h store) as [[m|]| |] eqn:F.
  - destruct (classification h store) as [[| | |]| |];
      (split; [try discriminate|try (intros [_ [D|D]]; discriminate D)]).
    + intros _. split; [now exists u|now right].
    + reflexivity.
  - split; [intros _; split; [now exists u|now left]|reflexivity].
  - split; [discriminate|intros [_ [D|D]]; [discriminate D|]].
    destruct (classification_needs_document h store NOP D) as [m F'].
    rewrite F in F'. discriminate F'.
  - split; [discriminate|intros [_ [D|D]]; [discriminate D|]].
    destruct (classification_needs_document h store NOP D) as [m F'].
    rewrite F in F'. discriminate F'.
Qed.

Lemma typed_serves (m : ManUpData) : typed_text (JSON.stringify (Some m)).
Proof. intros _. exists (Some m). apply parse_stringify. Qed.

Lemma validate_resolves_iff_witness :
  fst (validate_once (sample_host "ios" "3.0.0" (serves sample_metadata) []) None)
    = Resolved tt
  /\ fst (validate_once (sample_host "ios" "1.0.0" (Resolved "null") []) None)
     = Resolved tt.
Proof.
  split.
  - assert (T : typed_sources
                  (sample_host "ios" "3.0.0" (serves sample_metadata) []) None).
    { split.
      - intros body E. cbn in E. injection E as <-. apply typed_serves.
      - intros items text E. discriminate E. }
    apply (proj2 (validate_resolves_iff _ None T)).
    split; [now exists tt|right; vm_compute; reflexivity].
  - assert (T : typed_sources
                  (sample_host "ios" "1.0.0" (Resolved "null") []) None).
    { split.
      - intros body [= <-] _. now exists None.
      - intros items text E. discriminate E. }
    apply (proj2 (validate_resolves_iff _ None T)).
    split; [now exists tt|left; vm_compute; reflexivity].
Defined.

(** X2. Until the platform is ready nothing happens: when
    [platform.ready()] never resolves, the promise of [validate()] stays
    pending and no collaborator other than the platform is asked anything
    (no request, no storage access, no alert). *)
Theorem validate_waits_for_platform (h : Host) (store : option (gmap string string)) :
  (forall u, platform_ready h <> Resolved u) ->
  validate_once h store = (Pending, started store).
Proof.
  intros N. rewrite validate_once_eq.
  destruct (platform_ready h) as [u| |]; [now destruct (N u)|reflexivity..].
Qed.

Lemma validate_waits_for_platform_witness :
  trace (snd (validate_once
                (mkHost "u" (fun _ => serves sample_metadata) Pending
                        (String.eqb "ios") (Resolved "1.0.0") (Resolved "App")
                        None [Update])
                None))
  = [PlatformReady].
Proof.
  rewrite (validate_waits_for_platform
             (mkHost "u" (fun _ => serves sample_metadata) Pending
                     (String.eqb "ios") (Resolved "1.0.0") (Resolved "App")
                     None [Update]) None).
  - reflexivity.
  - intros u. discriminate.
Defined.



(** ** The metadata store, further *)

Lemma occurrences_emit (p : event -> bool) (e : event) (w : World) :
  occurrences p (emit_in e w) = occurrences p w + (if p e then 1 else 0).
Proof.
  unfold occurrences, emit_in. cbn [trace].
  rewrite List.filter_app, length_app. cbn [List.filter].
  now destruct (p e).
Qed.

Lemma metadata_success (h : Host) (w : World) (m : option ManUpData) :
  remote_serves h m ->
  metadata h w =
    (Resolved m,
     match storage w with
     | Some items =>
         mkWorld (Some (<[metadata_key := JSON.stringify m]> items))
                 ((trace w ++ [HttpGet (config_url h)])
                    ++ [StorageSet metadata_key (JSON.stringify m)])
                 (resolved w)
     | None => emit_in (HttpGet (config_url h)) w
     end).
Proof.
  intros (body & B & P).
  unfold metadata, try_catch, bind, emit, await, lift, has_storage, detached,
    saveMetadata, ret.
  cbn [fst snd]. rewrite B, P. cbn [storage emit_in trace resolved].
  destruct (storage w) as [items|] eqn:S.
  - rewrite bool_decide_eq_true_2 by eauto.
    cbn [storage emit_in trace resolved]. rewrite S. reflexivity.
  - rewrite bool_decide_eq_false_2 by (intros [? ?]; discriminate). reflexivity.
Qed.

(** What [metadata()] does when the response does not yield a document:
    it turns to the storage. *)
Lemma metadata_fallback (h : Host) (w : World) :
  match http_get h (config_url h) with
  | Rejected _ => True
  | Resolved body => exists e, JSON.parse (Some body) = Thrown e
  | Pending => False
  end ->
  metadata h w = adopt metadataFromStorage (emit_in (HttpGet (config_url h)) w).
Proof.
  intros F.
  unfold metadata, try_catch, bind, emit, await, lift.
  cbn [fst snd].
  destruct (http_get h (config_url h)) as [body| |].
  - destruct F as [e F]. now rewrite F.
  - reflexivity.
  - destruct F.
Qed.

Lemma metadata_failure (h : Host) (w : World) :
  remote_fails h ->
  metadata h w = adopt metadataFromStorage (emit_in (HttpGet (config_url h)) w).
Proof.
  intros F. apply metadata_fallback. unfold remote_fails in F.
  destruct (http_get h (config_url h)) as [body| |]; [|exact F..].
  exists SyntaxError. now apply not_json_throws.
Qed.

Lemma metadata_pending (h : Host) (w : World) :
  http_get h (config_url h) = Pending ->
  metadata h w = (Pending, emit_in (HttpGet (config_url h)) w).
Proof.
  intros F. unfold metadata, try_catch, bind, emit, await. cbn [fst snd].
  now rewrite F.
Qed.

(** Every host is in one of three cases. *)
Lemma metadata_cases (h : Host) :
  (exists m, remote_serves h m)
  \/ match http_get h (config_url h) with
     | Rejected _ => True
     | Resolved body => exists e, JSON.parse (Some body) = Thrown e
     | Pending => False
     end
  \/ http_get h (config_url h) = Pending.
Proof.
  unfold remote_serves.
  destruct (http_get h (config_url h)) as [body| |]; [|now right; left|now right; right].
  destruct (JSON.parse (Some body)) as [m|e] eqn:P.
  - left. now exists m, body.
  - right. left. now exists e.
Qed.

(** A host cannot both serve a document and fail. *)
Lemma serves_not_fails (h : Host) (m : option ManUpData) :
  remote_serves h m -> remote_fails h -> False.
Proof.
  intros (body & B & P) F. unfold remote_fails in F. rewrite B in F.
  rewrite (not_json_throws body F) in P. discriminate P.
Qed.

(** X4. With a storage configured, the document obtained by a successful
    [metadata()] is the one a later [metadata()] falls back to when the
    remote retrieval fails. *)
Theorem last_fetched_document_is_the_fallback (h1 h2 : Host) (w : World)
    (items : gmap string string) (m : option ManUpData) :
  storage w = Some items ->
  remote_serves h1 m ->
  remote_fails h2 ->
  fst (metadata h1 w) = Resolved m
  /\ fst (metadata h2 (snd (metadata h1 w))) = Resolved m.
Proof.
  intros S Ok Ko. rewrite (metadata_success h1 w m Ok), S. cbn [fst snd].
  split; [reflexivity|].
  rewrite (metadata_failure h2 _ Ko).
  unfold adopt, metadataFromStorage. cbn [storage emit_in fst snd].
  rewrite lookup_insert_eq. now rewrite parse_stringify.
Qed.

Lemma last_fetched_document_is_the_fallback_witness :
  fst (metadata (sample_host "ios" "1.0.0" network_error [])
         (snd (metadata (sample_host "ios" "1.0.0" (serves sample_metadata) [])
                        (initial_world (Some ∅)))))
  = Resolved (Some sample_metadata).
Proof.
  apply (last_fetched_document_is_the_fallback
           (sample_host "ios" "1.0.0" (serves sample_metadata) [])
           (sample_host "ios" "1.0.0" network_error [])
           (initial_world (Some ∅)) ∅ (Some sample_metadata)).
  - reflexivity.
  - exists (JSON.stringify (Some sample_metadata)). split; [reflexivity|].
    apply parse_stringify.
  - exact I.
Defined.

Lemma metadata_http (h : Host) (w : World) :
  occurrences is_http (snd (metadata h w)) = S (occurrences is_http w).
Proof.
  destruct (metadata_cases h) as [[m Ok]|[Ko|Pe]].
  - rewrite (metadata_success h w m Ok). cbn [snd].
    destruct (storage w) as [items|].
    + unfold occurrences. cbn [trace].
      rewrite !List.filter_app, !length_app. cbn. lia.
    + rewrite occurrences_emit. cbn. lia.
  - rewrite (metadata_fallback h w Ko). unfold adopt, metadataFromStorage.
    cbn [storage emit_in]. destruct (storage w); cbn [snd];
      rewrite !occurrences_emit; cbn; lia.
  - rewrite (metadata_pending h w Pe). cbn [snd].
    rewrite occurrences_emit. cbn. lia.
Qed.

Lemma metadata_failure_storage (h : Host) (w : World) :
  remote_fails h -> storage (snd (metadata h w)) = storage w.
Proof.
  intros Ko. rewrite (metadata_failure h w Ko).
  unfold adopt, metadataFromStorage. cbn [storage emit_in].
  destruct (storage w) eqn:S; cbn [snd storage emit_in]; now rewrite S.
Qed.

(** X5. One call of [metadata()] makes exactly one request and touches the
    storage at most once: a successful retrieval never reads it, a failed
    one never writes it and leaves its content as it was. *)
Theorem metadata_collaborator_calls (h : Host) (w : World) :
  occurrences is_http (snd (metadata h w)) = S (occurrences is_http w)
  /\ occurrences is_storage_get (snd (metadata h w))
     + occurrences is_storage_set (snd (metadata h w))
     <= S (occurrences is_storage_get w + occurrences is_storage_set w)
  /\ (forall m, remote_serves h m ->
        occurrences is_storage_get (snd (metadata h w))
        = occurrences is_storage_get w)
  /\ (remote_fails h ->
        occurrences is_storage_set (snd (metadata h w))
        = occurrences is_storage_set w
        /\ storage (snd (metadata h w)) = storage w).
Proof.
  assert (A : forall p, (forall k, p (StorageGet k) = false) ->
                        occurrences p
                          (snd (adopt metadataFromStorage
                                  (emit_in (HttpGet (config_url h)) w)))
                        = occurrences p (emit_in (HttpGet (config_url h)) w)).
  { intros p Hp. unfold adopt, metadataFromStorage. cbn [storage emit_in].
    destruct (storage w); cbn [snd]; [|reflexivity].
    rewrite (occurrences_emit p (StorageGet metadata_key)), Hp. lia. }
  assert (B : occurrences is_storage_get
                (snd (adopt metadataFromStorage
                        (emit_in (HttpGet (config_url h)) w)))
              <= S (occurrences is_storage_get w)).
  { unfold adopt, metadataFromStorage. cbn [storage emit_in].
    destruct (storage w); cbn [snd];
      rewrite ?(occurrences_emit is_storage_get (StorageGet metadata_key));
      rewrite (occurrences_emit is_storage_get (HttpGet (config_url h)));
      cbn [is_storage_get]; lia. }
  assert (C : forall m, remote_serves h m ->
     occurrences is_storage_get (snd (metadata h w)) = occurrences is_storage_get w
     /\ occurrences is_storage_set (snd (metadata h w))
        <= S (occurrences is_storage_set w)).
  { intros m Ok. rewrite (metadata_success h w m Ok). cbn [snd].
    destruct (storage w) as [items|].
    - unfold occurrences. cbn [trace].
      rewrite !List.filter_app, !length_app. cbn. lia.
    - rewrite !occurrences_emit. cbn. lia. }
  split; [apply metadata_http|]. split; [|split].
  - destruct (metadata_cases h) as [[m Ok]|[Ko|Pe]].
    + destruct (C m Ok). lia.
    + rewrite (metadata_fallback h w Ko).
      rewrite (A is_storage_set) by reflexivity.
      rewrite occurrences_emit. cbn [is_storage_set]. lia.
    + rewrite (metadata_pending h w Pe). cbn [snd].
      rewrite !occurrences_emit. cbn [is_storage_get is_storage_set]. lia.
  - intros m Ok. now destruct (C m Ok).
  - intros Ko. split; [|now apply metadata_failure_storage].
    rewrite (metadata_failure h w Ko).
    rewrite (A is_storage_set) by reflexivity.
    rewrite occurrences_emit. cbn [is_storage_set]. lia.
Qed.

Lemma metadata_collaborator_calls_witness :
  occurrences is_storage_get
    (snd (metadata (sample_host "ios" "1.0.0" (serves sample_metadata) [])
                   (initial_world (Some ∅)))) = 0
  /\ occurrences is_storage_set
       (snd (metadata (sample_host "ios" "1.0.0" network_error [])
                      (initial_world (Some ∅)))) = 0.
Proof.
  split.
  - apply (proj1 (proj2 (proj2 (metadata_collaborator_calls
             (sample_host "ios" "1.0.0" (serves sample_metadata) [])
             (initial_world (Some ∅))))) (Some sample_metadata)).
    exists (JSON.stringify (Some sample_metadata)). split; [reflexivity|].
    apply parse_stringify.
  - apply (proj2 (proj2 (proj2 (metadata_collaborator_calls
             (sample_host "ios" "1.0.0" network_error [])
             (initial_world (Some ∅)))))).
    exact I.
Defined.

(** X6. [saveMetadata] writes under its one key only: after two saves
    [metadataFromStorage()] resolves with the document saved last, and
    every other key of the storage holds what it held before. *)
Theorem save_overwrites_only_its_key (m1 m2 : option ManUpData) (w : World)
    (items : gmap string string) :
  storage w = Some items ->
  fst (metadataFromStorage (snd (saveMetadata m2 (snd (saveMetadata m1 w)))))
    = Returned (Resolved m2)
  /\ exists items',
       storage (snd (saveMetadata m2 (snd (saveMetadata m1 w)))) = Some items'
       /\ forall k, k <> metadata_key -> items' !! k = items !! k.
Proof.
  intros S. unfold saveMetadata, metadataFromStorage. rewrite S.
  cbn [fst snd storage]. split.
  - rewrite lookup_insert_eq. now rewrite parse_stringify.
  - eexists. split; [reflexivity|].
    intros k N. now rewrite !lookup_insert_ne by congruence.
Qed.

Lemma save_overwrites_only_its_key_witness :
  fst (metadataFromStorage
         (snd (saveMetadata None
                 (snd (saveMetadata (Some sample_metadata)
                         (initial_world (Some {["other" := "kept"]})))))))
  = Returned (Resolved None).
Proof.
  apply (save_overwrites_only_its_key (Some sample_metadata) None
           (initial_world (Some {["other" := "kept"]})) {["other" := "kept"]}).
  reflexivity.
Defined.

(** X7. A stored text that is not JSON does not make
    [metadataFromStorage()] throw: it returns a promise rejected with the
    parse error, and [metadata()] rejects with it when the remote retrieval
    has failed. *)
Theorem corrupt_cache_rejects (h : Host) (w : World) (items : gmap string string)
    (text : string) :
  storage w = Some items ->
  items !! metadata_key = Some text ->
  JSONSyntax.well_formed text = false ->
  fst (metadataFromStorage w) = Returned (Rejected SyntaxError)
  /\ (remote_fails h -> fst (metadata h w) = Rejected SyntaxError).
Proof.
  intros S L P. apply not_json_throws in P. split.
  - unfold metadataFromStorage. now rewrite S, L, P.
  - intros Ko. rewrite (metadata_failure h w Ko).
    unfold adopt, metadataFromStorage. cbn [storage emit_in]. now rewrite S, L, P.
Qed.

Lemma corrupt_cache_rejects_witness :
  fst (metadataFromStorage (initial_world (Some {[metadata_key := "{oops"]})))
  = Returned (Rejected SyntaxError).
Proof.
  apply (corrupt_cache_rejects (sample_host "ios" "1.0.0" network_error [])
           (initial_world (Some {[metadata_key := "{oops"]}))
           {[metadata_key := "{oops"]} "{oops").
  - reflexivity.
  - apply lookup_singleton_eq.
  - reflexivity.
Defined.

(** X8. With a storage configured that holds no document yet, a failed
    remote retrieval lets the application run: the promise of [validate()]
    resolves. *)
Theorem empty_cache_fails_open (h : Host) (items : gmap string string) :
  (exists u, platform_ready h = Resolved u) ->
  remote_fails h ->
  items !! metadata_key = None ->
  fst (validate_once h (Some items)) = Resolved tt.
Proof.
  intros [u R] Ko L. rewrite validate_once_fate, R.
  unfold fetched. rewrite (metadata_failure h _ Ko).
  unfold adopt, metadataFromStorage, started. cbn [storage emit_in initial_world].
  now rewrite L.
Qed.

Lemma empty_cache_fails_open_witness :
  fst (validate_once (sample_host "ios" "1.0.0" network_error []) (Some ∅))
  = Resolved tt.
Proof.
  apply (empty_cache_fails_open (sample_host "ios" "1.0.0" network_error []) ∅).
  - now exists tt.
  - exact I.
  - reflexivity.
Defined.

(** ** Code that makes no call of a given kind *)

Section Silent.
Variable p : event -> bool.

Lemma silent_ret {A} (a : A) : silent p (ret a).
Proof. now intros w. Qed.

Lemma silent_throw {A} (e : error) : silent p (@throw A e).
Proof. now intros w. Qed.

Lemma silent_await {A} (q : promise A) : silent p (await q).
Proof. now intros w. Qed.

Lemma silent_lift {A} (r : result A) : silent p (lift r).
Proof. intros w. unfold lift. now destruct r. Qed.

Lemma silent_has_storage : silent p has_storage.
Proof. now intros w. Qed.

Lemma silent_resolve (i : nat) : silent p (resolve i).
Proof. now intros w. Qed.

Lemma silent_emit (e : event) : p e = false -> silent p (emit e).
Proof.
  intros E w. unfold emit. cbn [snd]. rewrite occurrences_emit, E. lia.
Qed.

Lemma silent_bind {A B} (m : Async A) (f : A -> Async B) :
  silent p m -> (forall a, silent p (f a)) -> silent p (bind m f).
Proof.
  intros Hm Hf w. unfold bind. specialize (Hm w).
  destruct (m w) as [[a| |] w']; cbn [snd] in *; [|exact Hm..].
  now rewrite Hf.
Qed.

Lemma silent_try_catch {A} (m : Async A) (k : error -> Async A) :
  silent p m -> (forall e, silent p (k e)) -> silent p (try_catch m k).
Proof.
  intros Hm Hk w. unfold try_catch. specialize (Hm w).
  destruct (m w) as [[a|e|] w']; cbn [snd] in *; [exact Hm| |exact Hm].
  now rewrite Hk.
Qed.

Hypothesis no_http : forall u, p (HttpGet u) = false.
Hypothesis no_get : forall k, p (StorageGet k) = false.
Hypothesis no_set : forall k t, p (StorageSet k t) = false.
Hypothesis no_version : p GetVersionNumber = false.

Lemma silent_metadataFromStorage : silent p (adopt metadataFromStorage).
Proof.
  intros w. unfold adopt, metadataFromStorage.
  destruct (storage w); cbn [snd]; [|reflexivity].
  rewrite occurrences_emit, no_get. lia.
Qed.

Lemma silent_saveMetadata (m : option ManUpData) :
  silent p (detached (saveMetadata m)).
Proof.
  intros w. unfold detached, saveMetadata.
  destruct (storage w); cbn [snd]; [|reflexivity].
  unfold occurrences. cbn [trace].
  rewrite List.filter_app, length_app. cbn [List.filter].
  rewrite no_set. cbn [length]. lia.
Qed.

Lemma silent_metadata (h : Host) : silent p (metadata h).
Proof.
  unfold metadata.
  apply silent_try_catch; [|intros e; apply silent_metadataFromStorage].
  apply silent_bind.
  - apply silent_bind; [apply silent_emit, no_http|intros _; apply silent_await].
  - intros body. apply silent_bind; [apply silent_lift|].
    intros response. apply silent_bind; [apply silent_has_storage|].
    intros [|]; (apply silent_bind; [|intros _; apply silent_ret]).
    + apply silent_saveMetadata.
    + apply silent_ret.
Qed.

Lemma silent_evaluate (h : Host) (pd : option PlatformData) :
  silent p (evaluate h pd).
Proof.
  unfold evaluate, getVersionNumber.
  destruct pd as [pd|]; [|apply silent_throw].
  destruct (negb (enabled pd)); [apply silent_ret|].
  apply silent_bind.
  - apply silent_bind; [apply silent_emit, no_version|intros _; apply silent_await].
  - intros v. apply silent_bind; [apply silent_lift|].
    intros [|]; [apply silent_ret|].
    apply silent_bind; [apply silent_lift|].
    intros [|]; apply silent_ret.
Qed.

(** The first three steps of the callback make no call of the kind [p]. *)
Lemma silent_classification_steps (h : Host) (w : World) :
  occurrences p
    (snd ((metadata <- metadata h ;;
           platformData <- lift (getPlatformData h metadata) ;;
           evaluate h platformData) w))
  = occurrences p w.
Proof.
  revert w. apply silent_bind; [apply silent_metadata|].
  intros m. apply silent_bind; [apply silent_lift|].
  intros pd. apply silent_evaluate.
Qed.

End Silent.

(** ** The three presentations *)

Lemma optional_handlers_pending (platformData : any) (presses : list Button) (w : World) :
  ~ In NotNow presses -> fst (optional_handlers platformData presses w) = Pending.
Proof.
  revert w. induction presses as [|b presses IH]; intros w N; [reflexivity|].
  destruct b; [destruct N; now left|].
  cbn [optional_handlers]. unfold bind, emit. cbn [fst snd].
  apply IH. intros I. apply N. now right.
Qed.

Section PresentationCounts.
Variable q : event -> bool.
Variable platformData : any.
Variable b : bool.
Hypothesis browse : q (BrowserCreate (any_url platformData) "_system") = b.
Hypothesis no_name : q GetAppName = false.

Lemma mandatory_handlers_count (presses : list Button) (w : World) :
  occurrences q (snd (mandatory_handlers platformData presses w))
  = occurrences q w + (if b then length (List.filter is_update presses) else 0).
Proof.
  revert w. induction presses as [|[|] presses IH]; intros w.
  - cbn. destruct b; lia.
  - cbn [mandatory_handlers List.filter is_update]. apply IH.
  - cbn [mandatory_handlers List.filter is_update length].
    unfold bind, emit. cbn [fst snd]. rewrite IH, occurrences_emit, browse.
    destruct b; lia.
Qed.

Lemma optional_handlers_count (presses : list Button) (w : World) :
  occurrences q (snd (optional_handlers platformData presses w))
  = occurrences q w + (if b then updates_before_dismissal presses else 0).
Proof.
  revert w. induction presses as [|[|] presses IH]; intros w.
  - cbn. destruct b; lia.
  - cbn. destruct b; lia.
  - cbn [optional_handlers updates_before_dismissal].
    unfold bind, emit. cbn [fst snd]. rewrite IH, occurrences_emit, browse.
    destruct b; lia.
Qed.

Variable a : bool.

Lemma presentMandatoryUpdate_count (h : Host) (w : World) (name : string) :
  (forall t s bs, q (AlertPresent MANDATORY t s bs) = a) ->
  app_name h = Resolved name ->
  occurrences q (snd (presentMandatoryUpdate h platformData w))
  = occurrences q w + (if a then 1 else 0)
    + (if b then length (List.filter is_update (clicks h)) else 0).
Proof.
  intros Ha N. unfold presentMandatoryUpdate, getAppName, bind, emit, await.
  cbn [fst snd]. rewrite N. cbn [fst snd].
  rewrite mandatory_handlers_count, !occurrences_emit, Ha, no_name. lia.
Qed.

Lemma presentOptionalUpdate_count (h : Host) (w : World) (name : string) :
  (forall t s bs, q (AlertPresent OPTIONAL t s bs) = a) ->
  app_name h = Resolved name ->
  occurrences q (snd (presentOptionalUpdate h platformData w))
  = occurrences q w + (if a then 1 else 0)
    + (if b then updates_before_dismissal (clicks h) else 0).
Proof.
  intros Ha N. unfold presentOptionalUpdate, getAppName, bind, emit, await.
  cbn [fst snd]. rewrite N. cbn [fst snd].
  rewrite optional_handlers_count, !occurrences_emit, Ha, no_name. lia.
Qed.


End PresentationCounts.

Lemma same_url_refl (u : option string) : same_url u u = true.
Proof. destruct u as [s|]; [apply String.eqb_refl|reflexivity]. Qed.

Lemma is_browse_of_own (platformData : any) :
  is_browse_of (any_url platformData)
    (BrowserCreate (any_url platformData) "_system") = true.
Proof. cbn [is_browse_of]. now rewrite same_url_refl. Qed.

(** X9. The mandatory alert, once the app name is known: its promise stays
    pending whatever is pressed, one alert is presented, and the browser
    is opened once for each press of Update, each time outside the
    application on [platformData.url]. *)
Theorem mandatory_alert_behaviour (h : Host) (platformData : any) (w : World)
    (name : string) :
  app_name h = Resolved name ->
  fst (presentMandatoryUpdate h platformData w) = Pending
  /\ occurrences is_alert (snd (presentMandatoryUpdate h platformData w))
     = S (occurrences is_alert w)
  /\ occurrences is_browse (snd (presentMandatoryUpdate h platformData w))
     = occurrences is_browse w + length (List.filter is_update (clicks h))
  /\ occurrences (is_browse_of (any_url platformData))
       (snd (presentMandatoryUpdate h platformData w))
     = occurrences (is_browse_of (any_url platformData)) w
       + length (List.filter is_update (clicks h)).
Proof.
  intros N. split; [|split; [|split]].
  - unfold presentMandatoryUpdate, getAppName, bind, emit, await.
    cbn [fst snd]. rewrite N. cbn [fst snd]. apply mandatory_handlers_block.
  - rewrite (presentMandatoryUpdate_count is_alert platformData false
               eq_refl eq_refl true h w name); [lia|reflexivity|exact N].
  - rewrite (presentMandatoryUpdate_count is_browse platformData true
               eq_refl eq_refl false h w name); [lia|reflexivity|exact N].
  - rewrite (presentMandatoryUpdate_count (is_browse_of (any_url platformData))
               platformData true (is_browse_of_own platformData) eq_refl
               false h w name); [lia|reflexivity|exact N].
Qed.

Lemma mandatory_alert_behaviour_witness :
  occurrences (is_browse_of (Some "https://store.example/app"))
    (snd (presentMandatoryUpdate
            (sample_host "ios" "1.0.0" Pending [Update; NotNow; Update])
            (AnyPlatformData sample_policy) (initial_world None)))
  = 0 + 2.
Proof.
  apply (mandatory_alert_behaviour
           (sample_host "ios" "1.0.0" Pending [Update; NotNow; Update])
           (AnyPlatformData sample_policy) (initial_world None) "App").
  reflexivity.
Defined.

(** X10. The optional alert, once the app name is known: its promise
    resolves if the user ever presses Not Now and stays pending if not;
    one alert is presented, and the browser is opened on
    [platformData.url] once for each press of Update made before Not Now,
    and never after it. *)
Theorem optional_alert_behaviour (h : Host) (platformData : any) (w : World)
    (name : string) :
  app_name h = Resolved name ->
  (In NotNow (clicks h) ->
     fst (presentOptionalUpdate h platformData w) = Resolved tt)
  /\ (~ In NotNow (clicks h) ->
     fst (presentOptionalUpdate h platformData w) = Pending)
  /\ occurrences is_alert (snd (presentOptionalUpdate h platformData w))
     = S (occurrences is_alert w)
  /\ occurrences is_browse (snd (presentOptionalUpdate h platformData w))
     = occurrences is_browse w + updates_before_dismissal (clicks h)
  /\ occurrences (is_browse_of (any_url platformData))
       (snd (presentOptionalUpdate h platformData w))
     = occurrences (is_browse_of (any_url platformData)) w
       + updates_before_dismissal (clicks h).
Proof.
  intros N.
  assert (F : fst (presentOptionalUpdate h platformData w)
              = fst (optional_handlers platformData (clicks h)
                       (emit_in (AlertPresent OPTIONAL
          (text_of h "manup.optional.title" name "Update Available")
          (text_of h "manup.optional.text" name
             ("An update to " +:+ name +:+ " is available. Would you like to update?"))
          [(NotNow, label_of h "manup.buttons.later" "Not Now");
           (Update, label_of h "manup.buttons.update" "Update")])
                          (emit_in GetAppName w)))).
  { unfold presentOptionalUpdate, getAppName, bind, emit, await.
    cbn [fst snd]. rewrite N. reflexivity. }
  split; [|split; [|split; [|split]]].
  - intros I. rewrite F. now apply optional_handlers_not_now.
  - intros I. rewrite F. now apply optional_handlers_pending.
  - rewrite (presentOptionalUpdate_count is_alert platformData false
               eq_refl eq_refl true h w name); [lia|reflexivity|exact N].
  - rewrite (presentOptionalUpdate_count is_browse platformData true
               eq_refl eq_refl false h w name); [lia|reflexivity|exact N].
  - rewrite (presentOptionalUpdate_count (is_browse_of (any_url platformData))
               platformData true (is_browse_of_own platformData) eq_refl
               false h w name); [lia|reflexivity|exact N].
Qed.

Lemma optional_alert_behaviour_witness :
  occurrences is_browse
    (snd (presentOptionalUpdate
            (sample_host "ios" "2.5.0" Pending [Update; Update; NotNow; Update])
            (AnyPlatformData sample_policy) (initial_world None)))
  = 0 + 2.
Proof.
  apply (optional_alert_behaviour
           (sample_host "ios" "2.5.0" Pending [Update; Update; NotNow; Update])
           (AnyPlatformData sample_policy) (initial_world None) "App").
  reflexivity.
Defined.

(** X11. The maintenance alert never resolves and never opens the browser,
    whatever the user presses; once the app name is known it presents one
    alert without any button. *)
Theorem maintenance_alert_behaviour (h : Host) (w : World) :
  fst (presentMaintenanceMode h w) <> Resolved tt
  /\ occurrences is_browse (snd (presentMaintenanceMode h w))
     = occurrences is_browse w
  /\ (forall name, app_name h = Resolved name ->
        fst (presentMaintenanceMode h w) = Pending
        /\ snd (presentMaintenanceMode h w)
           = emit_in (AlertPresent MAINTENANCE
                        (text_of h "manup.maintenance.title" name
                           (name +:+ " Unavailable"))
                        (text_of h "manup.maintenance.text" name
                           (name +:+ " is currently unavailable. Please check back later"))
                        [])
               (emit_in GetAppName w)).
Proof.
  split; [apply (blocking_presentations h (AnyManUpData sample_metadata))|].
  unfold presentMaintenanceMode, getAppName, bind, emit, await. cbn [fst snd].
  split.
  - destruct (app_name h); cbn [fst snd]; rewrite ?occurrences_emit;
      cbn [is_browse]; lia.
  - intros name N. rewrite N. now split.
Qed.

(** X12. When [AppVersion.getAppName()] does not answer with a name, no
    presentation shows an alert or opens the browser, and none resolves:
    the only thing done is the query for the name. *)
Theorem no_app_name_no_alert (h : Host) (c : AlertType) (platformData : any)
    (w : World) :
  (forall name, app_name h <> Resolved name) ->
  c <> NOP ->
  fst (presentAlert h c platformData w) <> Resolved tt
  /\ snd (presentAlert h c platformData w) = emit_in GetAppName w.
Proof.
  intros N C.
  unfold presentAlert, presentMandatoryUpdate, presentOptionalUpdate,
    presentMaintenanceMode, getAppName, bind, emit, await.
  destruct c; [| | |now destruct C]; cbn [fst snd];
    (destruct (app_name h) as [name| |]; [now destruct (N name)|..]);
    cbn [fst snd]; split; try reflexivity; discriminate.
Qed.

Lemma no_app_name_no_alert_witness :
  trace (snd (presentAlert
                (mkHost "u" (fun _ => Pending) (Resolved tt) (String.eqb "ios")
                        (Resolved "1.0.0") (Rejected (External "no name")) None
                        [Update])
                MANDATORY (AnyPlatformData sample_policy) (initial_world None)))
  = [GetAppName].
Proof.
  rewrite (proj2 (no_app_name_no_alert
             (mkHost "u" (fun _ => Pending) (Resolved tt) (String.eqb "ios")
                     (Resolved "1.0.0") (Rejected (External "no name")) None
                     [Update])
             MANDATORY (AnyPlatformData sample_policy) (initial_world None)
             ltac:(intros name; discriminate) ltac:(discriminate))).
  reflexivity.
Defined.

Lemma maintenance_alert_behaviour_witness :
  fst (presentMaintenanceMode (sample_host "ios" "1.0.0" Pending [NotNow; Update])
                              (initial_world None)) = Pending.
Proof.
  apply (proj2 (proj2 (maintenance_alert_behaviour
                         (sample_host "ios" "1.0.0" Pending [NotNow; Update])
                         (initial_world None))) "App").
  reflexivity.
Defined.

(** ** What a whole run asks of the collaborators *)

Lemma silent_presentAlert (q : event -> bool) (h : Host) (c : AlertType)
    (platformData : any) :
  q GetAppName = false ->
  (forall k t s bs, q (AlertPresent k t s bs) = false) ->
  q (BrowserCreate (any_url platformData) "_system") = false ->
  silent q (presentAlert h c platformData).
Proof.
  intros Hn Ha Hb.
  assert (Hm : forall presses, silent q (mandatory_handlers platformData presses)).
  { intros presses w.
    rewrite (mandatory_handlers_count q platformData false Hb). lia. }
  assert (Ho : forall presses, silent q (optional_handlers platformData presses)).
  { intros presses w.
    rewrite (optional_handlers_count q platformData false Hb). lia. }
  unfold presentAlert, presentMandatoryUpdate, presentOptionalUpdate,
    presentMaintenanceMode, getAppName.
  destruct c; [| | |apply silent_ret];
    (apply silent_bind;
     [apply silent_bind; [now apply silent_emit|intros _; apply silent_await]|]);
    intros name;
    (apply silent_bind; [apply silent_emit, Ha|intros _]);
    [apply Hm|apply Ho|apply silent_await].
Qed.

Lemma presentAlert_alerts (q : event -> bool) (h : Host) (c : AlertType)
    (platformData : any) (w : World) :
  q GetAppName = false ->
  (forall u t, q (BrowserCreate u t) = false) ->
  occurrences q (snd (presentAlert h c platformData w)) <= S (occurrences q w).
Proof.
  intros Hn Hb.
  unfold presentAlert, presentMandatoryUpdate, presentOptionalUpdate,
    presentMaintenanceMode, getAppName, bind, emit, await.
  destruct c; cbn [fst snd ret]; [| | |lia];
    (destruct (app_name h) as [name| |]; cbn [fst snd];
     [|rewrite occurrences_emit, Hn; lia..]).
  - rewrite (mandatory_handlers_count q platformData false (Hb _ _)).
    rewrite !occurrences_emit, Hn.
    destruct (q (AlertPresent _ _ _ _)); lia.
  - rewrite (optional_handlers_count q platformData false (Hb _ _)).
    rewrite !occurrences_emit, Hn.
    destruct (q (AlertPresent _ _ _ _)); lia.
  - rewrite !occurrences_emit, Hn.
    destruct (q (AlertPresent _ _ _ _)); lia.
Qed.

Lemma check_count_le (q : event -> bool) (h : Host) (n1 n2 : nat) :
  (forall w, occurrences q (snd (metadata h w)) <= occurrences q w + n1) ->
  q GetVersionNumber = false ->
  (forall c m w, occurrences q (snd (presentAlert h c (AnyManUpData m) w))
                 <= occurrences q w + n2) ->
  forall p w, occurrences q (snd (check h p w)) <= occurrences q w + n1 + n2.
Proof.
  intros Hm Hv Hp p w. unfold check, bind.
  specialize (Hm w).
  destruct (metadata h w) as [[[m|]| |] w1]; cbn [fst snd] in *;
    [|cbn [resolve snd]; unfold occurrences in *; cbn [trace]; lia|lia..].
  pose proof (silent_lift q (getPlatformData h (Some m)) w1) as G.
  destruct (lift (getPlatformData h (Some m)) w1) as [[pd| |] w2];
    cbn [fst snd] in *; [|lia..].
  pose proof (silent_evaluate q Hv h pd w2) as E.
  destruct (evaluate h pd w2) as [[c| |] w3]; cbn [fst snd] in *; [|lia..].
  specialize (Hp c m w3).
  destruct c; try lia.
  cbn [resolve snd]. unfold occurrences in *. cbn [trace]. lia.
Qed.

Lemma metadata_storage_access (h : Host) (w : World) :
  occurrences is_storage_access (snd (metadata h w))
  <= occurrences is_storage_access w + 1.
Proof.
  destruct (metadata_cases h) as [[m Ok]|[Ko|Pe]].
  - rewrite (metadata_success h w m Ok). cbn [snd].
    destruct (storage w).
    + unfold occurrences. cbn [trace].
      rewrite !List.filter_app, !length_app. cbn. lia.
    + rewrite occurrences_emit. cbn. lia.
  - rewrite (metadata_fallback h w Ko). unfold adopt, metadataFromStorage.
    cbn [storage emit_in]. destruct (storage w); cbn [snd];
      rewrite !occurrences_emit; cbn; lia.
  - rewrite (metadata_pending h w Pe). cbn [snd].
    rewrite occurrences_emit. cbn. lia.
Qed.

Lemma run_callback_count_le (q : event -> bool) (h : Host) (n : nat) :
  (forall p w, occurrences q (snd (check h p w)) <= occurrences q w + n) ->
  forall s p, occurrences q (world (run_callback h s p))
              <= occurrences q (world s) + n.
Proof.
  intros Hc s p. unfold run_callback.
  destruct (platform_ready h); cbn [world]; [apply Hc|lia..].
Qed.

Lemma run_callback_waiting (h : Host) (s : Service) (p : nat) :
  waiting (run_callback h s p) = waiting s
  /\ inProgress (run_callback h s p) = inProgress s.
Proof. unfold run_callback. now destruct (platform_ready h). Qed.

Lemma run_count_le (q : event -> bool) (h : Host) (n : nat) :
  q PlatformReady = false ->
  (forall p w, occurrences q (snd (check h p w)) <= occurrences q w + n) ->
  forall schedule w,
    occurrences q (world (snd (run h schedule (new_service w))))
    <= occurrences q w + n.
Proof.
  intros Hr Hc schedule w. unfold run.
  assert (J : forall schedule st,
             (inProgress (snd st) = false /\ waiting (snd st) = []
              /\ occurrences q (world (snd st)) <= occurrences q w)
             \/ (inProgress (snd st) = true
                 /\ ((length (waiting (snd st)) <= 1
                      /\ occurrences q (world (snd st)) <= occurrences q w)
                     \/ (waiting (snd st) = []
                         /\ occurrences q (world (snd st)) <= occurrences q w + n))) ->
             occurrences q (world (snd (fold_left (step h) schedule st)))
             <= occurrences q w + n).
  { clear schedule. intros schedule.
    induction schedule as [|a schedule IH]; intros [hs s] I; cbn [fold_left snd] in *.
    - destruct I as [(_ & _ & I)|(_ & [(_ & I)|(_ & I)])]; lia.
    - apply IH. destruct a; cbn [step fst snd].
      + unfold validate.
        destruct I as [(I1 & I2 & I3)|(I1 & I2)]; rewrite I1; cbn [negb snd].
        * right. split; [reflexivity|]. left. cbn [waiting world].
          rewrite I2, occurrences_emit, Hr. cbn [app length]. split; lia.
        * right. now split.
      + unfold run_event_loop. cbn [snd].
        destruct I as [(I1 & I2 & I3)|(I1 & [(I2 & I3)|(I2 & I3)])].
        * rewrite I2. cbn [fold_left]. left. now repeat split.
        * right. destruct (waiting s) as [|p [|p' l]]; cbn [fold_left].
          -- split; [exact I1|]. right. cbn [waiting world]. split; [reflexivity|lia].
          -- destruct (run_callback_waiting h s p) as [_ R]. rewrite R.
             split; [exact I1|]. right. cbn [waiting world]. split; [reflexivity|].
             pose proof (run_callback_count_le q h n Hc s p). lia.
          -- cbn [length] in I2. lia.
        * rewrite I2. cbn [fold_left]. right. split; [exact I1|].
          right. cbn [waiting world]. now split. }
  apply J. left. cbn [snd new_service inProgress waiting world]. repeat split. lia.
Qed.

(** X13. Over the whole life of the service, however often [validate()]
    is called and whenever the event loop turns, it makes at most one
    request, accesses the storage at most once and presents at most one
    alert. *)
Theorem service_lifetime_budget (h : Host) (schedule : list action) (w : World) :
  occurrences is_http (world (snd (run h schedule (new_service w))))
    <= S (occurrences is_http w)
  /\ occurrences is_storage_access (world (snd (run h schedule (new_service w))))
    <= S (occurrences is_storage_access w)
  /\ occurrences is_alert (world (snd (run h schedule (new_service w))))
    <= S (occurrences is_alert w).
Proof.
  assert (Hh : forall p w', occurrences is_http (snd (check h p w'))
                            <= occurrences is_http w' + 1).
  { intros p w'.
    assert (M : forall w0, occurrences is_http (snd (metadata h w0))
                           <= occurrences is_http w0 + 1).
    { intros w0. rewrite metadata_http. lia. }
    assert (P : forall c m w0,
               occurrences is_http (snd (presentAlert h c (AnyManUpData m) w0))
               <= occurrences is_http w0 + 0).
    { intros c m w0.
      rewrite (silent_presentAlert is_http h c (AnyManUpData m)); [lia|easy..]. }
    pose proof (check_count_le is_http h 1 0 M eq_refl P p w'). lia. }
  assert (Hs : forall p w', occurrences is_storage_access (snd (check h p w'))
                            <= occurrences is_storage_access w' + 1).
  { intros p w'.
    assert (P : forall c m w0,
               occurrences is_storage_access
                 (snd (presentAlert h c (AnyManUpData m) w0))
               <= occurrences is_storage_access w0 + 0).
    { intros c m w0.
      rewrite (silent_presentAlert is_storage_access h c (AnyManUpData m));
        [lia|easy..]. }
    pose proof (check_count_le is_storage_access h 1 0
                  (metadata_storage_access h) eq_refl P p w'). lia. }
  assert (Ha : forall p w', occurrences is_alert (snd (check h p w'))
                            <= occurrences is_alert w' + 1).
  { intros p w'.
    assert (M : forall w0, occurrences is_alert (snd (metadata h w0))
                           <= occurrences is_alert w0 + 0).
    { intros w0. rewrite (silent_metadata is_alert); [lia|easy..]. }
    assert (P : forall c m w0,
               occurrences is_alert (snd (presentAlert h c (AnyManUpData m) w0))
               <= occurrences is_alert w0 + 1).
    { intros c m w0.
      pose proof (presentAlert_alerts is_alert h c (AnyManUpData m) w0
                    eq_refl (fun _ _ => eq_refl)). lia. }
    pose proof (check_count_le is_alert h 0 1 M eq_refl P p w'). lia. }
  pose proof (run_count_le is_http h 1 eq_refl Hh schedule w).
  pose proof (run_count_le is_storage_access h 1 eq_refl Hs schedule w).
  pose proof (run_count_le is_alert h 1 eq_refl Ha schedule w).
  lia.
Qed.


Lemma validate_once_started (h : Host) (store : option (gmap string string)) :
  validate_once h store =
    match platform_ready h with
    | Resolved _ =>
        (fate (snd (check h 0 (started store))) (Some 0),
         snd (check h 0 (started store)))
    | _ => (Pending, started store)
    end.
Proof. apply validate_once_eq. Qed.






Lemma storage_bind {A B} (m : Async A) (f : A -> Async B) :
  (forall w, storage (snd (m w)) = storage w) ->
  (forall a w, storage (snd (f a w)) = storage w) ->
  forall w, storage (snd (bind m f w)) = storage w.
Proof.
  intros Hm Hf w. unfold bind. specialize (Hm w).
  destruct (m w) as [[a| |] w']; cbn [snd] in *; [|exact Hm..].
  now rewrite Hf.
Qed.

Lemma evaluate_keeps_storage (h : Host) (pd : option PlatformData) (w : World) :
  storage (snd (evaluate h pd w)) = storage w.
Proof.
  revert w. unfold evaluate, getVersionNumber.
  destruct pd as [pd|]; [|reflexivity].
  destruct (negb (enabled pd)); [reflexivity|].
  apply storage_bind.
  - apply storage_bind; [reflexivity|intros _ w; reflexivity].
  - intros v. apply storage_bind; [intros w; unfold lift; now destruct (Semver.lt _ _)|].
    intros [|] w; [reflexivity|]. revert w.
    apply storage_bind; [intros w; unfold lift; now destruct (Semver.lt _ _)|].
    intros [|] w; reflexivity.
Qed.

Lemma handlers_keep_storage (platformData : any) (presses : list Button) (w : World) :
  storage (snd (mandatory_handlers platformData presses w)) = storage w
  /\ storage (snd (optional_handlers platformData presses w)) = storage w.
Proof.
  revert w. induction presses as [|[|] presses IH]; intros w;
    cbn [mandatory_handlers optional_handlers].
  - now split.
  - split; [apply IH|reflexivity].
  - unfold bind, emit. cbn [fst snd].
    destruct (IH (emit_in (BrowserCreate (any_url platformData) "_system") w))
      as [-> ->].
    now split.
Qed.

Lemma presentAlert_keeps_storage (h : Host) (c : AlertType) (platformData : any)
    (w : World) :
  storage (snd (presentAlert h c platformData w)) = storage w.
Proof.
  unfold presentAlert, presentMandatoryUpdate, presentOptionalUpdate,
    presentMaintenanceMode, getAppName, bind, emit, await.
  destruct c; cbn [fst snd ret]; [| | |reflexivity];
    (destruct (app_name h) as [name| |]; cbn [fst snd]; [|reflexivity..]).
  - now rewrite (proj1 (handlers_keep_storage _ _ _)).
  - now rewrite (proj2 (handlers_keep_storage _ _ _)).
  - reflexivity.
Qed.

Lemma check_storage (h : Host) (p : nat) (w : World) :
  storage (snd (check h p w)) = storage (snd (metadata h w)).
Proof.
  unfold check, bind.
  destruct (metadata h w) as [[[m|]| |] w1]; cbn [fst snd]; try reflexivity.
  destruct (getPlatformData h (Some m)) as [pd|e]; cbn [lift fst snd];
    [|reflexivity].
  pose proof (evaluate_keeps_storage h pd w1) as E.
  destruct (evaluate h pd w1) as [[c| |] w3]; cbn [fst snd] in *;
    [|exact E..].
  destruct c; try (now rewrite presentAlert_keeps_storage); exact E.
Qed.

(** X16. What a run leaves in the storage: when the platform is ready and
    the remote source serves a document, the storage holds under the
    metadata key a text that deserializes to that document, whatever the
    classification, and its other keys are untouched; when the remote
    retrieval fails the storage is left as it was; a service without
    storage never gets one. *)
Theorem validate_refreshes_cache (h : Host) (store : option (gmap string string)) :
  (forall m items,
     (exists u, platform_ready h = Resolved u) -> remote_serves h m ->
     store = Some items ->
     exists items',
       storage (snd (validate_once h store)) = Some items'
       /\ JSON.parse (items' !! metadata_key) = Returned m
       /\ forall k, k <> metadata_key -> items' !! k = items !! k)
  /\ (remote_fails h -> storage (snd (validate_once h store)) = store)
  /\ (store = None -> storage (snd (validate_once h store)) = None).
Proof.
  rewrite validate_once_started.
  split; [|split].
  - intros m items [u R] Ok ->. rewrite R. cbn [snd].
    rewrite check_storage, (metadata_success h _ m Ok).
    cbn [snd started emit_in initial_world storage].
    eexists. split; [reflexivity|]. split.
    + rewrite lookup_insert_eq. apply parse_stringify.
    + intros k N. now rewrite lookup_insert_ne by congruence.
  - intros Ko. destruct (platform_ready h); cbn [snd]; [|reflexivity..].
    rewrite check_storage. now rewrite metadata_failure_storage.
  - intros ->. destruct (platform_ready h); cbn [snd]; [|reflexivity..].
    rewrite check_storage.
    destruct (metadata_cases h) as [[m Ok]|[Ko|Pe]].
    + now rewrite (metadata_success h _ m Ok).
    + rewrite (metadata_fallback h _ Ko). reflexivity.
    + now rewrite (metadata_pending h _ Pe).
Qed.

Lemma validate_refreshes_cache_witness :
  exists items',
    storage (snd (validate_once
                    (sample_host "ios" "1.0.0" (serves sample_metadata) [Update])
                    (Some {["other" := "kept"]}))) = Some items'
    /\ JSON.parse (items' !! metadata_key) = Returned (Some sample_metadata)
    /\ forall k, k <> metadata_key ->
                 items' !! k = ({["other" := "kept"]} : gmap string string) !! k.
Proof.
  apply (proj1 (validate_refreshes_cache
                  (sample_host "ios" "1.0.0" (serves sample_metadata) [Update])
                  (Some {["other" := "kept"]})) (Some sample_metadata)
               {["other" := "kept"]}).
  - now exists tt.
  - exists (JSON.stringify (Some sample_metadata)). split; [reflexivity|].
    apply parse_stringify.
  - reflexivity.
Defined.

(** X17. [evaluate] on an enabled policy does not classify when it cannot
    compare: it rejects with the error of the version provider, stays
    pending with it, and rejects with a TypeError when the running version
    or [minimum] is not a semantic version, or when the version is not
    below [minimum] and [latest] is not one; on an absent policy it
    rejects with a TypeError. *)
Theorem evaluate_rejections (h : Host) (pd : PlatformData) (w : World) :
  enabled pd = true ->
  (forall e, app_version h = Rejected e ->
     fst (evaluate h (Some pd) w) = Rejected e)
  /\ (app_version h = Pending -> fst (evaluate h (Some pd) w) = Pending)
  /\ (forall v, app_version h = Resolved v ->
        Semver.parse v = None \/ Semver.parse (minimum pd) = None ->
        fst (evaluate h (Some pd) w) = Rejected TypeError)
  /\ (forall v, app_version h = Resolved v ->
        Semver.lt v (minimum pd) = Returned false ->
        Semver.parse (latest pd) = None ->
        fst (evaluate h (Some pd) w) = Rejected TypeError)
  /\ fst (evaluate h None w) = Rejected TypeError.
Proof.
  intros E. split; [|split; [|split; [|split]]].
  - intros e V. unfold evaluate, getVersionNumber, bind, emit, await.
    rewrite E, V. reflexivity.
  - intros V. unfold evaluate, getVersionNumber, bind, emit, await.
    rewrite E, V. reflexivity.
  - intros v V P. rewrite (evaluate_enabled h pd w v E V). cbn [fst].
    unfold Semver.lt at 1.
    destruct P as [-> | P]; [reflexivity|].
    rewrite P. now destruct (Semver.parse v).
  - intros v V L P. rewrite (evaluate_enabled h pd w v E V). cbn [fst].
    rewrite L. unfold Semver.lt. rewrite P. now destruct (Semver.parse v).
  - reflexivity.
Qed.

Lemma evaluate_rejections_witness :
  fst (evaluate (sample_host "ios" "1.0" Pending []) (Some sample_policy)
                (initial_world None)) = Rejected TypeError.
Proof.
  apply (proj1 (proj2 (proj2 (evaluate_rejections
           (sample_host "ios" "1.0" Pending []) sample_policy
           (initial_world None) eq_refl))) "1.0" eq_refl).
  left. vm_compute. reflexivity.
Defined.
(** ** Version precedence is an order *)

Lemma order_like_eq_l {T} (cmp : T -> T -> comparison) (x y z : T) :
  order_like cmp -> cmp x y = Eq -> cmp x z = cmp y z.
Proof.
  intros [A R] E.
  assert (E' : cmp y x = Eq) by (rewrite A, E; reflexivity).
  destruct (cmp y z) eqn:Y.
  - apply (R Eq x y z E Y).
  - destruct (cmp x z) eqn:X; [|reflexivity|].
    + pose proof (R Eq y x z E' X) as Q. congruence.
    + assert (X' : cmp z x = Lt) by (rewrite A, X; reflexivity).
      pose proof (R Lt y z x Y X') as Q. congruence.
  - destruct (cmp x z) eqn:X; [| |reflexivity].
    + pose proof (R Eq y x z E' X) as Q. congruence.
    + assert (Y' : cmp z y = Lt) by (rewrite A, Y; reflexivity).
      assert (X' : cmp z x = Gt) by (rewrite A, X; reflexivity).
      pose proof (R Lt x z y X Y') as Q. congruence.
Qed.

Lemma order_like_eq_r {T} (cmp : T -> T -> comparison) (x y z : T) :
  order_like cmp -> cmp y z = Eq -> cmp x z = cmp x y.
Proof.
  intros O E. destruct O as [A R] eqn:K. clear K.
  assert (E' : cmp z y = Eq) by (rewrite A, E; reflexivity).
  pose proof (order_like_eq_l cmp z y x (conj A R) E') as Q.
  rewrite (A x z), (A x y) in Q.
  destruct (cmp x z), (cmp x y); cbn in Q; congruence.
Qed.

(** One comparison, then another where the first ties. *)
Lemma order_like_and_then {T} (c1 c2 : T -> T -> comparison) :
  order_like c1 -> order_like c2 ->
  order_like (fun x y => match c1 x y with Eq => c2 x y | o => o end).
Proof.
  intros O1 O2. split.
  - intros x y. destruct O1 as [A1 _], O2 as [A2 _].
    rewrite (A1 x y). destruct (c1 x y); cbn; [apply A2|reflexivity..].
  - intros c x y z.
    pose proof (order_like_eq_l c1 x y z O1) as L.
    pose proof (order_like_eq_r c1 x y z O1) as R.
    destruct O1 as [_ T1], O2 as [_ T2].
    specialize (T1 (c1 x y) x y z eq_refl).
    specialize (T2 c x y z).
    destruct (c1 x y) eqn:X.
    + rewrite (L eq_refl). destruct (c1 y z); [exact T2|congruence..].
    + destruct (c1 y z) eqn:Y.
      * rewrite (R eq_refl). congruence.
      * rewrite (T1 eq_refl). congruence.
      * congruence.
    + destruct (c1 y z) eqn:Y.
      * rewrite (R eq_refl). congruence.
      * congruence.
      * rewrite (T1 eq_refl). congruence.
Qed.

Lemma order_like_on {T K} (f : T -> K) (cmp : K -> K -> comparison) :
  order_like cmp -> order_like (fun x y => cmp (f x) (f y)).
Proof.
  intros [A R]. split; [intros x y; apply A|intros c x y z; apply R].
Qed.

Lemma order_like_N : order_like N.compare.
Proof.
  split; [intros x y; apply N.compare_antisym|].
  intros [| |] x y z.
  - rewrite !N.compare_eq_iff. congruence.
  - rewrite !N.compare_lt_iff. lia.
  - rewrite !N.compare_gt_iff. lia.
Qed.

Section SemverIsAnOrder.
Import Semver.

Lemma order_like_string_compare : order_like string_compare.
Proof.
  split.
  - intros x. induction x as [|a x IH]; intros [|b y]; cbn; try reflexivity.
    rewrite (N.compare_antisym (code a) (code b)).
    destruct (code a ?= code b)%N; cbn; [apply IH|reflexivity..].
  - intros c x. induction x as [|a x IH]; intros [|b y] [|d z]; cbn;
      try congruence.
    pose proof (order_like_eq_l N.compare (code a) (code b) (code d) order_like_N) as L.
    pose proof (order_like_eq_r N.compare (code a) (code b) (code d) order_like_N) as R.
    pose proof (proj2 order_like_N (code a ?= code b)%N (code a) (code b) (code d)
                  eq_refl) as T.
    destruct (code a ?= code b)%N eqn:X.
    + rewrite (L eq_refl). destruct (code b ?= code d)%N; [apply IH|congruence..].
    + destruct (code b ?= code d)%N eqn:Y.
      * rewrite (R eq_refl). congruence.
      * rewrite (T eq_refl). congruence.
      * congruence.
    + destruct (code b ?= code d)%N eqn:Y.
      * rewrite (R eq_refl). congruence.
      * congruence.
      * rewrite (T eq_refl). congruence.
Qed.

Lemma order_like_compareIdentifiers : order_like compareIdentifiers.
Proof.
  destruct order_like_N as [AN TN].
  destruct order_like_string_compare as [AS TS].
  split.
  - intros [x|s] [y|t]; cbn; repeat destruct (numeric_text _); cbn;
      try reflexivity; try apply AN; apply AS.
  - intros c [x|s] [y|t] [z|r]; cbn; repeat destruct (numeric_text _);
      try congruence; try apply TN; apply TS.
Qed.

Lemma order_like_compare_ids : order_like compare_ids.
Proof.
  split.
  - intros x. induction x as [|a x IH]; intros [|b y]; cbn; try reflexivity.
    rewrite (proj1 order_like_compareIdentifiers a b).
    destruct (compareIdentifiers a b); cbn; [apply IH|reflexivity..].
  - intros c x. induction x as [|a x IH]; intros [|b y] [|d z]; cbn;
      try congruence.
    pose proof (order_like_eq_l compareIdentifiers a b d
                  order_like_compareIdentifiers) as L.
    pose proof (order_like_eq_r compareIdentifiers a b d
                  order_like_compareIdentifiers) as R.
    pose proof (proj2 order_like_compareIdentifiers (compareIdentifiers a b)
                  a b d eq_refl) as T.
    destruct (compareIdentifiers a b) eqn:X.
    + rewrite (L eq_refl). destruct (compareIdentifiers b d); [apply IH|congruence..].
    + destruct (compareIdentifiers b d) eqn:Y.
      * rewrite (R eq_refl). congruence.
      * rewrite (T eq_refl). congruence.
      * congruence.
    + destruct (compareIdentifiers b d) eqn:Y.
      * rewrite (R eq_refl). congruence.
      * congruence.
      * rewrite (T eq_refl). congruence.
Qed.

Lemma order_like_comparePre : order_like comparePre.
Proof.
  destruct order_like_compare_ids as [A T]. unfold comparePre. split.
  - intros x y. destruct (prerelease x) as [|a l], (prerelease y) as [|b m];
      try reflexivity. apply A.
  - intros c x y z.
    destruct (prerelease x) as [|a l], (prerelease y) as [|b m],
      (prerelease z) as [|d n]; try congruence. apply T.
Qed.

Lemma order_like_compareMain : order_like compareMain.
Proof.
  apply (order_like_and_then
           (fun a b => major a ?= major b)%N
           (fun a b => match (minor a ?= minor b)%N with
                       | Eq => (patch a ?= patch b)%N
                       | o => o
                       end)).
  - apply (order_like_on major), order_like_N.
  - apply (order_like_and_then (fun a b => minor a ?= minor b)%N
             (fun a b => patch a ?= patch b)%N).
    + apply (order_like_on minor), order_like_N.
    + apply (order_like_on patch), order_like_N.
Qed.

Lemma order_like_compare : order_like compare.
Proof.
  apply (order_like_and_then compareMain comparePre).
  - apply order_like_compareMain.
  - apply order_like_comparePre.
Qed.

(** [semver.lt] on valid versions, through [compare]. *)
Lemma lt_parsed (a b : string) (x y : SemVer) :
  parse a = Some x -> parse b = Some y ->
  lt a b = Returned (match compare x y with Lt => true | _ => false end).
Proof. intros A B. unfold lt. now rewrite A, B. Qed.

Lemma lt_returned (a b : string) (r : bool) :
  lt a b = Returned r -> exists x y, parse a = Some x /\ parse b = Some y.
Proof.
  unfold lt. destruct (parse a) as [x|], (parse b) as [y|]; try discriminate.
  intros _. now exists x, y.
Qed.

(** a < b and b <= c give a < c; a <= b and b < c give a < c. *)
Lemma lt_le_trans (a b c : string) :
  lt a b = Returned true -> lt c b = Returned false -> lt a c = Returned true.
Proof.
  intros H1 H2.
  destruct (lt_returned _ _ _ H1) as (x & y & X & Y).
  destruct (lt_returned _ _ _ H2) as (z & _ & Z & _).
  rewrite (lt_parsed a b x y X Y) in H1. rewrite (lt_parsed c b z y Z Y) in H2.
  rewrite (lt_parsed a c x z X Z). f_equal.
  destruct order_like_compare as [A T].
  destruct (compare x y) eqn:XY; try discriminate H1.
  rewrite (A y z) in H2.
  destruct (compare y z) eqn:YZ; cbn in H2; try discriminate H2.
  - now rewrite (order_like_eq_r compare x y z (conj A T) YZ), XY.
  - now rewrite (T Lt x y z XY YZ).
Qed.

Lemma le_lt_trans (a b c : string) :
  lt b a = Returned false -> lt b c = Returned true -> lt a c = Returned true.
Proof.
  intros H1 H2.
  destruct (lt_returned _ _ _ H1) as (y & x & Y & X).
  destruct (lt_returned _ _ _ H2) as (_ & z & _ & Z).
  rewrite (lt_parsed b a y x Y X) in H1. rewrite (lt_parsed b c y z Y Z) in H2.
  rewrite (lt_parsed a c x z X Z). f_equal.
  destruct order_like_compare as [A T].
  destruct (compare y z) eqn:YZ; try discriminate H2.
  rewrite (A x y) in H1.
  destruct (compare x y) eqn:XY; cbn in H1; try discriminate H1.
  - now rewrite (order_like_eq_l compare x y z (conj A T) XY), YZ.
  - now rewrite (T Lt x y z XY YZ).
Qed.

End SemverIsAnOrder.

(** X18. For versions whose numeric prerelease identifiers are below
    [MAX_SAFE_INTEGER]: when [latest] precedes [minimum], [evaluate] never
    answers OPTIONAL, since a version that is not below [minimum] is not
    below [latest] either. *)
Theorem optional_unreachable_when_latest_below_minimum (h : Host)
    (pd : PlatformData) (w : World) :
  exact_version (minimum pd) = true ->
  exact_version (latest pd) = true ->
  (forall v, app_version h = Resolved v -> exact_version v = true) ->
  Semver.lt (latest pd) (minimum pd) = Returned true ->
  fst (evaluate h (Some pd) w) <> Resolved OPTIONAL.
Proof.
  intros _ _ _ L. unfold evaluate, getVersionNumber, bind, emit, await, lift, ret.
  destruct (enabled pd); cbn [negb fst snd]; [|discriminate].
  destruct (app_version h) as [v| |]; cbn [fst snd]; try discriminate.
  destruct (Semver.lt v (minimum pd)) as [[|]|] eqn:M; cbn [fst snd];
    try discriminate.
  destruct (Semver.lt v (latest pd)) as [[|]|] eqn:T; cbn [fst snd];
    try discriminate.
  pose proof (lt_le_trans v (latest pd) (minimum pd) T) as Q.
  assert (K : Semver.lt (minimum pd) (latest pd) = Returned false).
  { destruct (lt_returned _ _ _ L) as (x & y & X & Y).
    rewrite (lt_parsed _ _ x y X Y) in L. rewrite (lt_parsed _ _ y x Y X).
    rewrite (proj1 order_like_compare x y).
    destruct (Semver.compare x y); cbn; try discriminate L; reflexivity. }
  rewrite (Q K) in M. discriminate M.
Qed.

Lemma optional_unreachable_when_latest_below_minimum_witness :
  fst (evaluate (sample_host "ios" "2.5.0-rc.1" Pending [])
                (Some (mkPlatformData "3.0.0" "2.0.0" "store" true))
                (initial_world None)) <> Resolved OPTIONAL.
Proof.
  apply (optional_unreachable_when_latest_below_minimum
           (sample_host "ios" "2.5.0-rc.1" Pending [])
           (mkPlatformData "3.0.0" "2.0.0" "store" true) (initial_world None)).
  - vm_compute. reflexivity.
  - vm_compute. reflexivity.
  - intros v E. cbn in E. injection E as <-. vm_compute. reflexivity.
  - vm_compute. reflexivity.
Defined.

(** X19. For versions whose numeric prerelease identifiers are below
    [MAX_SAFE_INTEGER], upgrading never tightens the gate: for one policy
    and two running versions of which the second does not precede the
    first, if the second is classified MANDATORY so is the first, and if
    the first is classified NOP so is the second. *)
Theorem upgrading_never_tightens (h1 h2 : Host) (pd : PlatformData)
    (w1 w2 : World) (v1 v2 : string) :
  exact_version (minimum pd) = true ->
  exact_version (latest pd) = true ->
  exact_version v1 = true ->
  exact_version v2 = true ->
  app_version h1 = Resolved v1 -> app_version h2 = Resolved v2 ->
  Semver.lt v2 v1 = Returned false ->
  (fst (evaluate h2 (Some pd) w2) = Resolved MANDATORY ->
     fst (evaluate h1 (Some pd) w1) = Resolved MANDATORY)
  /\ (fst (evaluate h1 (Some pd) w1) = Resolved NOP ->
      fst (evaluate h2 (Some pd) w2) = Resolved NOP).
Proof.
  intros _ _ _ _ V1 V2 L.
  destruct (enabled pd) eqn:E.
  - rewrite (evaluate_enabled h1 pd w1 v1 E V1), (evaluate_enabled h2 pd w2 v2 E V2).
    cbn [fst]. split.
    + destruct (Semver.lt v2 (minimum pd)) as [[|]|] eqn:M2; try discriminate.
      * intros _. now rewrite (le_lt_trans v1 v2 (minimum pd) L M2).
      * destruct (Semver.lt v2 (latest pd)) as [[|]|]; discriminate.
    + destruct (Semver.lt v1 (minimum pd)) as [[|]|] eqn:M1; try discriminate.
      destruct (Semver.lt v1 (latest pd)) as [[|]|] eqn:T1; try discriminate.
      intros _.
      destruct (lt_returned _ _ _ M1) as (x1 & m & X1 & Mi).
      destruct (lt_returned _ _ _ T1) as (_ & t & _ & La).
      destruct (lt_returned _ _ _ L) as (x2 & _ & X2 & _).
      destruct (Semver.lt v2 (minimum pd)) as [[|]|] eqn:M2.
      * rewrite (lt_le_trans v2 (minimum pd) v1 M2 M1) in L. discriminate L.
      * destruct (Semver.lt v2 (latest pd)) as [[|]|] eqn:T2.
        -- rewrite (lt_le_trans v2 (latest pd) v1 T2 T1) in L. discriminate L.
        -- reflexivity.
        -- rewrite (lt_parsed _ _ x2 t X2 La) in T2. discriminate T2.
      * rewrite (lt_parsed _ _ x2 m X2 Mi) in M2. discriminate M2.
  - rewrite (evaluate_disabled h1 pd w1 E), (evaluate_disabled h2 pd w2 E).
    split; discriminate.
Qed.

Lemma upgrading_never_tightens_witness :
  fst (evaluate (sample_host "ios" "1.5.0" Pending []) (Some sample_policy)
                (initial_world None)) = Resolved MANDATORY
  /\ fst (evaluate (sample_host "ios" "3.1.0" Pending []) (Some sample_policy)
                   (initial_world None)) = Resolved NOP.
Proof.
  split.
  - apply (proj1 (upgrading_never_tightens
             (sample_host "ios" "1.5.0" Pending [])
             (sample_host "ios" "1.9.9" Pending [])
             sample_policy (initial_world None) (initial_world None)
             "1.5.0" "1.9.9" eq_refl eq_refl eq_refl eq_refl
             eq_refl eq_refl eq_refl)).
    vm_compute. reflexivity.
  - apply (proj2 (upgrading_never_tightens
             (sample_host "ios" "3.0.0" Pending [])
             (sample_host "ios" "3.1.0" Pending [])
             sample_policy (initial_world None) (initial_world None)
             "3.0.0" "3.1.0" eq_refl eq_refl eq_refl eq_refl
             eq_refl eq_refl eq_refl)).
    vm_compute. reflexivity.
Defined.
